(** * The hessian2 wire codec of dubbo-go: header and body framing

    A shallow embedding of [HessianCodec] (package [hessian2]): the
    sixteen-byte frame header decoder [ReadHeader], the body readers
    [ReadBody] and [ReadAttachments], and the [Write] dispatcher, over a
    model of Go's [bufio.Reader].

    Conventions.
    - A Go [byte] is a [Z] in [0, 256); a [[]byte] is a [list Z].
    - A Go [error] is [option error]; [None] is [nil].
    - Go's [int] is 32 or 64 bits wide depending on the platform: [Arch].
    - A run-time panic is an [outcome] of its own, never an error value. *)

From Stdlib Require Import String Ascii.
From Stdlib Require Import ZArith List Bool Lia.
Import ListNotations.

Local Open Scope string_scope.
Local Open Scope list_scope.
Local Open Scope Z_scope.

Set Implicit Arguments.
Set Warnings "-register-all".

(** ** Go values *)

Definition byte := Z.

(** Errors.  The three sentinels of the package live in a file that is not
    part of the sources at hand; they are distinct values there and distinct
    constructors here.  [Errorf] carries the formatted message,
    [WithStack] is [perrors.WithStack] on a non-nil error. *)
Inductive error : Type :=
| ErrHeaderNotEnough
| ErrIllegalPackage
| ErrBodyNotEnough
| Errorf (msg : string)
| WithStack (e : error)
| io_EOF
| io_ErrNoProgress
| bufio_ErrBufferFull
| bufio_ErrNegativeCount
| SourceError (code : nat)
| DecodeError (code : nat).

(** [perrors.WithStack]: nil stays nil. *)
Definition perrors_WithStack (err : option error) : option error :=
  match err with
  | None => None
  | Some e => Some (WithStack e)
  end.

(** What a call does: return, panic, or exhaust the fuel of a bounded loop
    (every fuelled loop below comes with a lemma that its fuel suffices). *)
Inductive outcome (A : Type) : Type :=
| Returns (a : A)
| Panics (msg : string)
| OutOfFuel.

Arguments Returns {A} a.
Arguments Panics {A} msg.
Arguments OutOfFuel {A}.

Definition bind {A B : Type} (m : outcome A) (k : A -> outcome B) : outcome B :=
  match m with
  | Returns a => k a
  | Panics msg => Panics msg
  | OutOfFuel => OutOfFuel
  end.

Notation "x <- m ;; k" := (bind m (fun x => k))
  (at level 61, m at next level, right associativity).
Notation "' p <- m ;; k" := (bind m (fun x => match x with p => k end))
  (at level 61, p pattern, m at next level, right associativity).

(** Go's [int]: its width is the platform's. *)
Inductive Arch : Type := Arch32 | Arch64.

Definition intBits (a : Arch) : Z :=
  match a with Arch32 => 32 | Arch64 => 64 end.

(** Two's complement reading of the low [bits] bits. *)
Definition to_signed (bits : Z) (x : Z) : Z :=
  (x + 2 ^ (bits - 1)) mod 2 ^ bits - 2 ^ (bits - 1).

(** The conversions [int64(u)] of a [uint64] and [int(u)] of a [uint32]. *)
Definition int64_of_uint64 (u : Z) : Z := to_signed 64 u.
Definition int_of_uint32 (a : Arch) (u : Z) : Z := to_signed (intBits a) u.

(** [b[i]] on a slice; the callers below index within bounds. *)
Definition at_ (b : list byte) (i : nat) : byte := nth i b 0.

(** [binary.BigEndian.Uint64] and [binary.BigEndian.Uint32]. *)
Definition BigEndian_Uint64 (b : list byte) : Z :=
  Z.lor (at_ b 7)
 (Z.lor (Z.shiftl (at_ b 6) 8)
 (Z.lor (Z.shiftl (at_ b 5) 16)
 (Z.lor (Z.shiftl (at_ b 4) 24)
 (Z.lor (Z.shiftl (at_ b 3) 32)
 (Z.lor (Z.shiftl (at_ b 2) 40)
 (Z.lor (Z.shiftl (at_ b 1) 48)
        (Z.shiftl (at_ b 0) 56))))))).

Definition BigEndian_Uint32 (b : list byte) : Z :=
  Z.lor (at_ b 3)
 (Z.lor (Z.shiftl (at_ b 2) 8)
 (Z.lor (Z.shiftl (at_ b 1) 16)
        (Z.shiftl (at_ b 0) 24))).

(** [%v] of an integer: its decimal digits. *)
Fixpoint digits (fuel : nat) (n : N) (acc : string) : string :=
  match fuel with
  | O => acc
  | S fuel' =>
      let d := String (ascii_of_N (48 + N.modulo n 10)) acc in
      if N.ltb n 10 then d else digits fuel' (N.div n 10) d
  end.

Definition fmt_int (z : Z) : string :=
  let n := Z.to_N (Z.abs z) in
  let s := digits (S (N.to_nat (N.log2 n))) n "" in
  if z <? 0 then String "-" s else s.

(** ** The byte source under the buffered reader

    An [io.Reader] is a script of the results its [Read] calls will give,
    in order: some bytes, perhaps with an error.  A call asking for fewer
    bytes than the next result holds takes a prefix and leaves the rest; an
    exhausted script reads as end of file. *)
Definition Source : Type := list (list byte * option error).

Definition src_Read (k : nat) (s : Source) : list byte * option error * Source :=
  match s with
  | [] => ([], Some io_EOF, [])
  | (bs, e) :: s' =>
      if (length bs <=? k)%nat then (bs, e, s')
      else (firstn k bs, None, (skipn k bs, e) :: s')
  end.

(** ** [bufio.Reader]

    The reader's window [b.buf[b.r:b.w]] is kept as the list of unread
    bytes; [buf_size] is [len(b.buf)], the capacity, which
    [bufio.NewReaderSize] never lets fall below sixteen. *)
Record Reader : Type := mkReader {
  buf_data : list byte;
  buf_size : nat;
  rd_err : option error;
  rd : Source
}.

Definition minReadBufferSize : nat := 16.
Definition maxConsecutiveEmptyReads : nat := 100.

Definition NewReaderSize (src : Source) (size : nat) : Reader :=
  {| buf_data := []; buf_size := Nat.max size minReadBufferSize;
     rd_err := None; rd := src |}.

(** [b.Size()]: the capacity of the buffer, not its content. *)
Definition Size (b : Reader) : Z := Z.of_nat (buf_size b).

(** [b.Buffered()]: the bytes that can be read from the buffer now. *)
Definition Buffered (b : Reader) : Z := Z.of_nat (length (buf_data b)).

(** [b.readErr()]: hand out the pending error and clear it. *)
Definition readErr (b : Reader) : option error * Reader :=
  (rd_err b,
   {| buf_data := buf_data b; buf_size := buf_size b; rd_err := None; rd := rd b |}).

(** The retry loop of [b.fill()]: up to [i] reads of the source into the
    free tail of the buffer, until one yields bytes or an error. *)
Fixpoint fill_loop (i : nat) (b : Reader) : Reader :=
  match i with
  | O => {| buf_data := buf_data b; buf_size := buf_size b;
            rd_err := Some io_ErrNoProgress; rd := rd b |}
  | S i' =>
      let '(bs, e, s') := src_Read (buf_size b - length (buf_data b)) (rd b) in
      let b' := {| buf_data := buf_data b ++ bs; buf_size := buf_size b;
                   rd_err := rd_err b; rd := s' |} in
      match e with
      | Some err => {| buf_data := buf_data b'; buf_size := buf_size b';
                       rd_err := Some err; rd := rd b' |}
      | None => if (0 <? length bs)%nat then b' else fill_loop i' b'
      end
  end.

Arguments fill_loop : simpl never.

Definition fill (b : Reader) : outcome Reader :=
  if (buf_size b <=? length (buf_data b))%nat
  then Panics "bufio: tried to fill full buffer"
  else Returns (fill_loop maxConsecutiveEmptyReads b).

(** The loop of [Peek]: fill while fewer than [n] bytes are buffered, the
    buffer is not full and no error is pending. *)
Fixpoint Peek_loop (fuel : nat) (n : Z) (b : Reader) : outcome Reader :=
  if (Buffered b <? n) && (Buffered b <? Size b)
     && match rd_err b with None => true | Some _ => false end
  then match fuel with
       | O => OutOfFuel
       | S fuel' => b' <- fill b ;; Peek_loop fuel' n b'
       end
  else Returns b.

Definition Peek (b : Reader) (n : Z) : outcome (list byte * option error * Reader) :=
  if n <? 0 then Returns ([], Some bufio_ErrNegativeCount, b)
  else
    b1 <- Peek_loop (buf_size b) n b ;;
    if Size b1 <? n then Returns (buf_data b1, Some bufio_ErrBufferFull, b1)
    else if Buffered b1 <? n then
      let '(e, b2) := readErr b1 in
      Returns (buf_data b1,
               Some (match e with Some err => err | None => bufio_ErrBufferFull end),
               b2)
    else Returns (firstn (Z.to_nat n) (buf_data b1), None, b1).

(** The loop of [Discard]; [remain] bytes are still to skip. *)
Fixpoint Discard_loop (fuel : nat) (n remain : Z) (b : Reader)
  : outcome (Z * option error * Reader) :=
  match fuel with
  | O => OutOfFuel
  | S fuel' =>
      b1 <- (if Buffered b =? 0 then fill b else Returns b) ;;
      let skip := Z.min (Buffered b1) remain in
      let b2 := {| buf_data := skipn (Z.to_nat skip) (buf_data b1);
                   buf_size := buf_size b1; rd_err := rd_err b1; rd := rd b1 |} in
      let remain' := remain - skip in
      if remain' =? 0 then Returns (n, None, b2)
      else match rd_err b2 with
           | Some _ => let '(e, b3) := readErr b2 in Returns (n - remain', e, b3)
           | None => Discard_loop fuel' n remain' b2
           end
  end.

(** A round of the loop skips at least one byte or ends the loop, since
    [fill] comes back with bytes or with an error. *)
Definition Discard_fuel (n : Z) : nat := S (Z.to_nat n).

Definition Discard (b : Reader) (n : Z) : outcome (Z * option error * Reader) :=
  if n <? 0 then Returns (0, Some bufio_ErrNegativeCount, b)
  else if n =? 0 then Returns (0, None, b)
  else Discard_loop (Discard_fuel n) n n b.

(** [b.Read(p)] with [len(p) = k]: the bytes copied into [p] (their number
    is the count returned), the error, and the reader afterwards. *)
Definition Read (b : Reader) (k : nat) : outcome (list byte * option error * Reader) :=
  if (k =? 0)%nat then
    if 0 <? Buffered b then Returns ([], None, b)
    else let '(e, b') := readErr b in Returns ([], e, b')
  else
    match buf_data b with
    | [] =>
        match rd_err b with
        | Some _ => let '(e, b') := readErr b in Returns ([], e, b')
        | None =>
            if (buf_size b <=? k)%nat then
              (* large read, empty buffer: straight into p *)
              let '(bs, e, s') := src_Read k (rd b) in
              Returns (bs, e, {| buf_data := []; buf_size := buf_size b;
                                 rd_err := None; rd := s' |})
            else
              (* one read of the source into the buffer *)
              let '(bs, e, s') := src_Read (buf_size b) (rd b) in
              match bs with
              | [] => Returns ([], e, {| buf_data := []; buf_size := buf_size b;
                                         rd_err := None; rd := s' |})
              | _ :: _ =>
                  Returns (firstn k bs, None,
                           {| buf_data := skipn k bs; buf_size := buf_size b;
                              rd_err := e; rd := s' |})
              end
        end
    | _ :: _ =>
        Returns (firstn k (buf_data b), None,
                 {| buf_data := skipn k (buf_data b); buf_size := buf_size b;
                    rd_err := rd_err b; rd := rd b |})
    end.

(** ** The data model of the codec *)

Definition PackageType : Type := Z.

Definition PackageError : PackageType := 0x01.
Definition PackageRequest : PackageType := 0x02.
Definition PackageResponse : PackageType := 0x04.
Definition PackageHeartbeat : PackageType := 0x08.
Definition PackageRequest_TwoWay : PackageType := 0x10.
Definition PackageResponse_Exception : PackageType := 0x20.
Definition PackageType_BitSize : Z := 0x2f.

Record DubboHeader : Type := mkHeader {
  SerialID : byte;
  Type_ : PackageType;
  ID : Z;
  BodyLen : Z;
  ResponseStatus : byte
}.

(** The header a caller constructs before [ReadHeader]: Go's zero value. *)
Definition emptyHeader : DubboHeader :=
  {| SerialID := 0; Type_ := 0; ID := 0; BodyLen := 0; ResponseStatus := 0 |}.

Record Service : Type := mkService {
  Path : string;
  Interface : string;
  Group : string;
  Version : string;
  Method : string;
  Timeout : Z
}.

Record HessianCodec : Type := mkCodec {
  pkgType : PackageType;
  reader : Reader;
  bodyLen : Z;
  stream : bool
}.

Definition NewHessianCodec (r : Reader) : HessianCodec :=
  {| pkgType := 0; reader := r; bodyLen := 0; stream := false |}.

Definition NewHessianCodecCustom (t : PackageType) (r : Reader) (len : Z) : HessianCodec :=
  {| pkgType := t; reader := r; bodyLen := len; stream := false |}.

Definition NewStreamHessianCodecCustom (t : PackageType) (r : Reader) (len : Z) : HessianCodec :=
  {| pkgType := t; reader := r; bodyLen := len; stream := true |}.

Definition with_reader (h : HessianCodec) (r : Reader) : HessianCodec :=
  {| pkgType := pkgType h; reader := r; bodyLen := bodyLen h; stream := stream h |}.

(** Values behind Go's [any], as far as the codec tells them apart: by
    their dynamic type.  A [map[string]any] is an association list, [None]
    being the nil map; a [*DubboResponse] is the record it points to,
    [None] being the nil pointer. *)
Inductive any : Type :=
| nil_any
| any_bool (b : bool)
| any_int (z : Z)
| any_string (s : string)
| any_map (m : option (list (string * any)))
| any_slice (l : list any)
| any_response (p : option (any * option error * option (list (string * any)))).

Definition GoMap : Type := option (list (string * any)).

(** Modelled from the spec: the response container [DubboResponse], declared
    in a file of the package that is not at hand; the spec gives it an
    exception slot and an attachment field beside the decoded result. *)
Record DubboResponse : Type := mkResponse {
  RspObj : any;
  Exception : option error;
  Attachments : GoMap
}.

Definition ptr (r : DubboResponse) : any :=
  any_response (Some (RspObj r, Exception r, Attachments r)).

(** A decoder of the serialization library, by the constructor that made it. *)
Inductive Decoder : Type :=
| NewDecoder (b : list byte)
| NewDecoderWithSkip (b : list byte).

(** Modelled from the spec: the length of a frame header, sixteen bytes; the
    constant [HEADER_LENGTH] is declared outside the sources at hand. *)
Definition HEADER_LENGTH : Z := 16.

(** Modelled from the spec: the mask of the serialization id, the low five
    bits of the flag byte; [SERIAL_MASK] is declared outside the sources at
    hand. *)
Definition SERIAL_MASK : byte := 0x1f.

(** Modelled from the spec: the zero byte [Zero], declared outside the
    sources at hand. *)
Definition Zero : byte := 0.

(** The protocol constants whose values neither the sources at hand nor the
    spec give: the two magic bytes, the three flag bits of byte 2 and the
    status byte that means OK. *)
Class Consts : Type := {
  MAGIC_HIGH : byte;
  MAGIC_LOW : byte;
  FLAG_EVENT : byte;
  FLAG_REQUEST : byte;
  FLAG_TWOWAY : byte;
  Response_OK : byte
}.

(** The collaborators of the codec: the generic decoder, the body unpackers
    and the packers.  An unpacker fills the object it is given; here it
    returns the object as filled. *)
Class Collaborators : Type := {
  Decode : Decoder -> any * option error;
  unpackRequestBody : Decoder -> any -> any * option error;
  unpackResponseBody : Decoder -> any -> any * option error;
  packRequest : Service -> DubboHeader -> any -> list byte * option error;
  packResponse : DubboHeader -> any -> list byte * option error
}.

(** [copy(buf[off:], data)] for [data] that fits. *)
Definition copy_at (buf : list byte) (off : nat) (data : list byte) : list byte :=
  firstn off buf ++ data ++ skipn (off + length data) buf.

Definition orType (header : DubboHeader) (t : PackageType) : DubboHeader :=
  {| SerialID := SerialID header; Type_ := Z.lor (Type_ header) t; ID := ID header;
     BodyLen := BodyLen header; ResponseStatus := ResponseStatus header |}.

Definition setSerialID (header : DubboHeader) (v : byte) : DubboHeader :=
  {| SerialID := v; Type_ := Type_ header; ID := ID header;
     BodyLen := BodyLen header; ResponseStatus := ResponseStatus header |}.

Definition setResponseStatus (header : DubboHeader) (v : byte) : DubboHeader :=
  {| SerialID := SerialID header; Type_ := Type_ header; ID := ID header;
     BodyLen := BodyLen header; ResponseStatus := v |}.

Definition setID (header : DubboHeader) (v : Z) : DubboHeader :=
  {| SerialID := SerialID header; Type_ := Type_ header; ID := v;
     BodyLen := BodyLen header; ResponseStatus := ResponseStatus header |}.

Definition setBodyLen (header : DubboHeader) (v : Z) : DubboHeader :=
  {| SerialID := SerialID header; Type_ := Type_ header; ID := ID header;
     BodyLen := v; ResponseStatus := ResponseStatus header |}.

Section Codec.

Context {K : Consts}.
Variable arch : Arch.

(** *** [ReadHeader] *)

(** Lines 128-152: the sixteen header bytes, or the error the call returns.
    Streaming: one [Read], and one more into the rest of the buffer when the
    first came back short.  Buffered: [Size], [Peek], [Discard]. *)
Definition readHeaderBytes (h : HessianCodec)
  : outcome ((error + list byte) * Reader) :=
  if stream h then
    let buf := repeat 0 (Z.to_nat HEADER_LENGTH) in
    '(d1, err, r1) <- Read (reader h) (length buf) ;;
    match err with
    | Some e => Returns (inl (WithStack e), r1)
    | None =>
        let n := length d1 in
        let buf := copy_at buf 0 d1 in
        if Z.of_nat n <? HEADER_LENGTH then
          '(d2, err, r2) <- Read r1 (length buf - n) ;;
          match err with
          | Some e => Returns (inl (WithStack e), r2)
          | None => Returns (inr (copy_at buf n d2), r2)
          end
        else Returns (inr buf, r1)
    end
  else
    if Size (reader h) <? HEADER_LENGTH then Returns (inl ErrHeaderNotEnough, reader h)
    else
      '(buf, err, r1) <- Peek (reader h) HEADER_LENGTH ;;
      match err with
      | Some e => Returns (inl (WithStack e), r1)
      | None =>
          '(_, err, r2) <- Discard r1 HEADER_LENGTH ;;
          match err with
          | Some e => Returns (inl (WithStack e), r2)
          | None => Returns (inr buf, r2)
          end
      end.

(** Lines 156-191: the fields of the header out of the sixteen bytes.  The
    header is filled in place, so it comes back also when decoding fails. *)
Definition decodeHeader (buf : list byte) (header : DubboHeader)
  : option error * DubboHeader :=
  if negb (at_ buf 0 =? MAGIC_HIGH) && negb (at_ buf 1 =? MAGIC_LOW)
  then (Some ErrIllegalPackage, header)
  else
    let header := setSerialID header (Z.land (at_ buf 2) SERIAL_MASK) in
    if SerialID header =? Zero
    then (Some (Errorf ("serialization ID:" ++ fmt_int (SerialID header))), header)
    else
      let header :=
        if negb (Z.land (at_ buf 2) FLAG_EVENT =? Zero)
        then orType header PackageHeartbeat else header in
      let header :=
        if negb (Z.land (at_ buf 2) FLAG_REQUEST =? Zero)
        then
          let header := orType header PackageRequest in
          if negb (Z.land (at_ buf 2) FLAG_TWOWAY =? Zero)
          then orType header PackageRequest_TwoWay else header
        else
          let header := orType header PackageResponse in
          let header := setResponseStatus header (at_ buf 3) in
          if negb (ResponseStatus header =? Response_OK)
          then orType header PackageResponse_Exception else header in
      let header := setID header (int64_of_uint64 (BigEndian_Uint64 (skipn 4 buf))) in
      let header := setBodyLen header (int_of_uint32 arch (BigEndian_Uint32 (skipn 12 buf))) in
      if BodyLen header <? 0 then (Some ErrIllegalPackage, header)
      else (None, header).

(** [ReadHeader]: the error returned, the session and the header afterwards. *)
Definition ReadHeader (h : HessianCodec) (header : DubboHeader)
  : outcome (option error * HessianCodec * DubboHeader) :=
  '(got, r) <- readHeaderBytes h ;;
  let h := with_reader h r in
  match got with
  | inl e => Returns (Some e, h, header)
  | inr buf =>
      match decodeHeader buf header with
      | (Some e, header) => Returns (Some e, h, header)
      | (None, header) =>
          let h := {| pkgType := Type_ header; reader := reader h;
                      bodyLen := BodyLen header; stream := stream h |} in
          if (Buffered (reader h) <? bodyLen h) && negb (stream h)
          then Returns (Some ErrBodyNotEnough, h, header)
          else Returns (perrors_WithStack None, h, header)
      end
  end.

End Codec.

(** *** Reading the body *)

(** The loop of lines 213-219 (and 275-281): [Read] into [buf[readLen:]]
    until [readLen] reaches [bodyLen]; an error ends the call. *)
Fixpoint readBody_loop (fuel : nat) (len : Z) (buf : list byte) (readLen : Z)
  (r : Reader) : outcome ((error + list byte) * Reader) :=
  if readLen <? len then
    match fuel with
    | O => OutOfFuel
    | S fuel' =>
        '(d, err, r') <- Read r (length buf - Z.to_nat readLen) ;;
        match err with
        | Some e => Returns (inl (WithStack e), r')
        | None =>
            readBody_loop fuel' len (copy_at buf (Z.to_nat readLen) d)
              (readLen + Z.of_nat (length d)) r'
        end
    end
  else Returns (inr buf, r).

(** A round of the loop gains a byte of the body, uses up a result of the
    source, or ends the call. *)
Definition readBody_fuel (len : Z) (r : Reader) : nat :=
  S (Z.to_nat len + length (rd r)).

(** Lines 210-232 of [ReadBody], and the same lines 272-294 of
    [ReadAttachments]: the [bodyLen] bytes of the body, or the error the
    call returns. *)
Definition readBodyBytes (h : HessianCodec)
  : outcome ((error + list byte) * Reader) :=
  if stream h then
    if bodyLen h <? 0 then Panics "runtime error: makeslice: len out of range"
    else
      readBody_loop (readBody_fuel (bodyLen h) (reader h)) (bodyLen h)
        (repeat 0 (Z.to_nat (bodyLen h))) 0 (reader h)
  else
    if Buffered (reader h) <? bodyLen h then Returns (inl ErrBodyNotEnough, reader h)
    else
      '(buf, err, r1) <- Peek (reader h) (bodyLen h) ;;
      match err with
      | Some e => Returns (inl (WithStack e), r1)
      | None =>
          '(_, err, r2) <- Discard r1 (bodyLen h) ;;
          match err with
          | Some e => Returns (inl (WithStack e), r2)
          | None => Returns (inr buf, r2)
          end
      end.

(** [v[i]] on a [[]any]. *)
Definition index_any (v : any) (i : nat) : outcome any :=
  match v with
  | any_slice l =>
      match nth_error l i with
      | Some x => Returns x
      | None => Panics "runtime error: index out of range"
      end
  | _ => Panics "not a slice"
  end.

(** The unchecked assertions [v.(string)] and [v.(map[string]any)]. *)
Definition assert_string (v : any) : outcome string :=
  match v with
  | any_string s => Returns s
  | _ => Panics "interface conversion: interface {} is not string"
  end.

Definition assert_map (v : any) : outcome GoMap :=
  match v with
  | any_map m => Returns m
  | _ => Panics "interface conversion: interface {} is not map[string]interface {}"
  end.

(** [rsp.Exception = e] through a [*DubboResponse]. *)
Definition store_Exception
  (p : option (any * option error * option (list (string * any)))) (e : error)
  : outcome any :=
  match p with
  | Some (obj, _, att) => Returns (any_response (Some (obj, Some e, att)))
  | None => Panics "runtime error: invalid memory address or nil pointer dereference"
  end.

(** [rspObj.Attachments] through a [*DubboResponse]. *)
Definition load_Attachments (v : any) : outcome GoMap :=
  match v with
  | any_response (Some (_, _, att)) => Returns att
  | any_response None =>
      Panics "runtime error: invalid memory address or nil pointer dereference"
  | _ => Panics "not a *DubboResponse"
  end.

Definition is_nil (v : any) : bool :=
  match v with nil_any => true | _ => false end.

Section Dispatch.

Context {C : Collaborators}.

(** [ReadBody]: the error returned, the session afterwards and the result
    object as the call leaves it. *)
Definition ReadBody (h : HessianCodec) (rspObj : any)
  : outcome (option error * HessianCodec * any) :=
  '(got, r) <- readBodyBytes h ;;
  let h := with_reader h r in
  match got with
  | inl e => Returns (Some e, h, rspObj)
  | inr buf =>
      let t := Z.land (pkgType h) PackageType_BitSize in
      if (t =? Z.lor (Z.lor PackageResponse PackageHeartbeat) PackageResponse_Exception)
         || (t =? Z.lor PackageResponse PackageResponse_Exception)
      then
        let decoder := NewDecoder buf in
        let '(exception, exceptionErr) := Decode decoder in
        match exceptionErr with
        | Some e => Returns (Some (WithStack e), h, rspObj)
        | None =>
            match rspObj with
            | any_response rsp =>
                s <- assert_string exception ;;
                rspObj' <- store_Exception rsp (Errorf ("java exception:" ++ s)) ;;
                Returns (None, h, rspObj')
            | _ =>
                s <- assert_string exception ;;
                Returns (Some (Errorf ("java exception:" ++ s)), h, rspObj)
            end
        end
      else if (t =? Z.lor PackageRequest PackageHeartbeat)
              || (t =? Z.lor PackageResponse PackageHeartbeat)
      then Returns (None, h, rspObj)
      else if t =? PackageRequest then
        if negb (is_nil rspObj) then
          let '(rspObj', err) := unpackRequestBody (NewDecoder buf) rspObj in
          match err with
          | Some e => Returns (Some (WithStack e), h, rspObj')
          | None => Returns (None, h, rspObj')
          end
        else Returns (None, h, rspObj)
      else if t =? PackageResponse then
        if negb (is_nil rspObj) then
          let '(rspObj', err) := unpackResponseBody (NewDecoder buf) rspObj in
          match err with
          | Some e => Returns (Some (WithStack e), h, rspObj')
          | None => Returns (None, h, rspObj')
          end
        else Returns (None, h, rspObj)
      else Returns (None, h, rspObj)
  end.

(** [ReadAttachments]: the map and the error returned, and the session
    afterwards. *)
Definition ReadAttachments (h : HessianCodec)
  : outcome (GoMap * option error * HessianCodec) :=
  '(got, r) <- readBodyBytes h ;;
  let h := with_reader h r in
  match got with
  | inl e => Returns (None, Some e, h)
  | inr buf =>
      let t := Z.land (pkgType h) PackageType_BitSize in
      if t =? PackageRequest then
        let rspObj := any_slice (repeat nil_any 7) in
        let '(rspObj, err) := unpackRequestBody (NewDecoderWithSkip buf) rspObj in
        match err with
        | Some e => Returns (None, Some (WithStack e), h)
        | None =>
            v <- index_any rspObj 6 ;;
            m <- assert_map v ;;
            Returns (m, None, h)
        end
      else if t =? PackageResponse then
        let rspObj := ptr {| RspObj := nil_any; Exception := None; Attachments := None |} in
        let '(rspObj, err) := unpackResponseBody (NewDecoderWithSkip buf) rspObj in
        match err with
        | Some e => Returns (None, Some (WithStack e), h)
        | None =>
            m <- load_Attachments rspObj ;;
            Returns (m, None, h)
        end
      else Returns (None, None, h)
  end.

(** [Write]: the bytes and the error returned, and the session afterwards. *)
Definition Write (h : HessianCodec) (service : Service) (header : DubboHeader)
  (body : any) : list byte * option error * HessianCodec :=
  let t := Type_ header in
  if t =? PackageHeartbeat then
    if ResponseStatus header =? Zero
    then (packRequest service header body, h)
    else (packResponse header body, h)
  else if (t =? PackageRequest) || (t =? PackageRequest_TwoWay) then
    (packRequest service header body, h)
  else if t =? PackageResponse then
    (packResponse header body, h)
  else
    (([], Some (Errorf ("Unrecognized message type: " ++ fmt_int t))), h).

End Dispatch.

(** The constants as the Dubbo protocol has them, for the examples. *)
Definition dubbo : Consts :=
  {| MAGIC_HIGH := 0xda; MAGIC_LOW := 0xbb; FLAG_EVENT := 0x20;
     FLAG_REQUEST := 0x80; FLAG_TWOWAY := 0x40; Response_OK := 20 |}.

(** ** The header layout of section 4.1, in the spec's words

    Bytes 0-1 the magic constant; byte 2 the serialization id in bits 0-4
    and the event, request and two-way flags in the remaining bits; byte 3
    the response status; bytes 4-11 the request id and bytes 12-15 the body
    length, both big-endian. *)

(** The [n] bytes of [v], most significant first. *)
Fixpoint be_bytes (n : nat) (v : Z) : list byte :=
  match n with
  | O => []
  | S n' => (v / 256 ^ Z.of_nat n') mod 256 :: be_bytes n' v
  end.

(** Horner's reading of big-endian bytes. *)
Definition horner (l : list byte) : Z := fold_left (fun acc b => acc * 256 + b) l 0.

Definition isByte (b : Z) : bool := (0 <=? b) && (b <? 256).

Record HeaderFields : Type := mkFields {
  f_serial : Z;
  f_event : bool;
  f_request : bool;
  f_twoway : bool;
  f_status : byte;
  f_id : Z;
  f_len : Z
}.

(** The fields a header can carry: a serialization id of 1 to 31, a status
    byte, a signed 64-bit request id, and a body length of 32 bits that
    Go's [int] holds as a non-negative number. *)
Definition fields_ok (a : Arch) (f : HeaderFields) : bool :=
  (1 <=? f_serial f) && (f_serial f <=? 31)
  && isByte (f_status f)
  && (- 2 ^ 63 <=? f_id f) && (f_id f <? 2 ^ 63)
  && (0 <=? f_len f) && (f_len f <? 2 ^ 32) && (f_len f <? 2 ^ (intBits a - 1)).

(** What the layout asks of the constants: they are bytes, and the three
    flags are bits of byte 2 apart from each other and from the
    serialization id. *)
Definition consts_ok (K : Consts) : bool :=
  isByte MAGIC_HIGH && isByte MAGIC_LOW && isByte Response_OK
  && isByte FLAG_EVENT && isByte FLAG_REQUEST && isByte FLAG_TWOWAY
  && negb (FLAG_EVENT =? 0) && negb (FLAG_REQUEST =? 0) && negb (FLAG_TWOWAY =? 0)
  && (Z.land FLAG_EVENT SERIAL_MASK =? 0)
  && (Z.land FLAG_REQUEST SERIAL_MASK =? 0)
  && (Z.land FLAG_TWOWAY SERIAL_MASK =? 0)
  && (Z.land FLAG_EVENT FLAG_REQUEST =? 0)
  && (Z.land FLAG_EVENT FLAG_TWOWAY =? 0)
  && (Z.land FLAG_REQUEST FLAG_TWOWAY =? 0).

Section Layout.

Context {K : Consts}.

Definition spec_flagByte (f : HeaderFields) : byte :=
  Z.lor (Z.lor (Z.lor (f_serial f)
                      (if f_event f then FLAG_EVENT else 0))
               (if f_request f then FLAG_REQUEST else 0))
        (if f_twoway f then FLAG_TWOWAY else 0).

Definition spec_encodeHeader (f : HeaderFields) : list byte :=
  [MAGIC_HIGH; MAGIC_LOW; spec_flagByte f; f_status f]
  ++ be_bytes 8 (f_id f mod 2 ^ 64)
  ++ be_bytes 4 (f_len f).

(** The package type the flags stand for: heartbeat for the event bit;
    request, with two-way if flagged, for the request bit; response
    otherwise, with the exception bit when the status is not OK. *)
Definition spec_packageType (f : HeaderFields) : PackageType :=
  Z.lor (if f_event f then PackageHeartbeat else 0)
        (if f_request f
         then Z.lor PackageRequest (if f_twoway f then PackageRequest_TwoWay else 0)
         else Z.lor PackageResponse
                (if f_status f =? Response_OK then 0 else PackageResponse_Exception)).

End Layout.

(** The package types whose body is a remote exception: response with the
    exception bit, with or without the heartbeat bit. *)
Definition isResponseException (t : PackageType) : bool :=
  let m := Z.land t PackageType_BitSize in
  (m =? Z.lor (Z.lor PackageResponse PackageHeartbeat) PackageResponse_Exception)
  || (m =? Z.lor PackageResponse PackageResponse_Exception).

(** ** Sample frames

    Headers over arbitrary constants [K]; each has serialization id 1 and
    request id 0. *)

(** The first byte is the magic high byte, the second is not the magic low
    byte; no body. *)
Definition half_magic_header (K : Consts) : list byte :=
  [MAGIC_HIGH; Z.lxor MAGIC_LOW 1; 1; 0; 0; 0; 0; 0; 0; 0; 0; 0; 0; 0; 0; 0].

(** A source with five bytes to give and nothing more. *)
Definition short_source : Source := [([1; 2; 3; 4; 5], None)].

(** A header announcing a body of seven bytes, arriving in pieces of five,
    five and six bytes. *)
Definition trickling_source (K : Consts) : Source :=
  [([MAGIC_HIGH; MAGIC_LOW; 1; 0; 0], None);
   ([0; 0; 0; 0; 0], None);
   ([0; 0; 0; 0; 0; 7], None)].

(** A header whose body-length field is 0x80000000: negative as a signed
    32-bit value. *)
Definition negative_length_header (K : Consts) : list byte :=
  [MAGIC_HIGH; MAGIC_LOW; 1; 0; 0; 0; 0; 0; 0; 0; 0; 0; 0x80; 0; 0; 0].

(** A response frame over the Dubbo constants: serialization id 2, status
    50 (not OK), request id -2, a body of three bytes. *)
Definition sample_fields : HeaderFields :=
  {| f_serial := 2; f_event := false; f_request := false; f_twoway := false;
     f_status := 50; f_id := -2; f_len := 3 |}.

(** Buffered sessions over that header: one with the whole frame in the
    source, one with the header alone. *)
Definition whole_frame_codec : HessianCodec :=
  NewHessianCodec
    (NewReaderSize
       [((spec_encodeHeader (K := dubbo) sample_fields ++ [1; 2; 3])%list, None)] 4096).

Definition header_only_codec : HessianCodec :=
  NewHessianCodec
    (NewReaderSize [(spec_encodeHeader (K := dubbo) sample_fields, None)] 4096).

(** Collaborators for the examples.  The decoder yields a string for an
    empty body and an integer otherwise; the request unpacker fills the
    seventh field with a map for an empty body and with an integer
    otherwise; the response unpacker fills result and attachments. *)
Definition decoder_bytes (d : Decoder) : list byte :=
  match d with NewDecoder b => b | NewDecoderWithSkip b => b end.

Definition sample_collaborators : Collaborators :=
  {| Decode := fun d =>
       match decoder_bytes d with
       | [] => (any_string "boom", None)
       | b :: _ => (any_int b, None)
       end;
     unpackRequestBody := fun d obj =>
       match obj with
       | any_slice l =>
           (any_slice (firstn 6 l ++
                       [match decoder_bytes d with
                        | [] => any_map (Some [("k", any_string "v")])
                        | b :: _ => any_int b
                        end])%list, None)
       | _ => (obj, None)
       end;
     unpackResponseBody := fun d obj =>
       match obj with
       | any_response (Some (_, e, _)) =>
           (any_response (Some (any_int 1, e, Some [("k", any_string "v")])), None)
       | _ => (obj, None)
       end;
     packRequest := fun _ _ _ => ([1], None);
     packResponse := fun _ _ => ([2], None) |}.

(** A two-way request frame whose status byte is 7, with no body, and a
    streaming session that receives it. *)
Definition request_fields : HeaderFields :=
  {| f_serial := 2; f_event := false; f_request := true; f_twoway := true;
     f_status := 7; f_id := 9; f_len := 0 |}.

Definition request_stream_codec : HessianCodec :=
  NewStreamHessianCodecCustom 0
    (NewReaderSize [(spec_encodeHeader (K := dubbo) request_fields, None)] 4096) 0.

(** Sessions that have read a header and await the body: a buffered one
    for a body of no bytes, a streaming one for a body of the one byte 7. *)
Definition empty_body_codec (t : PackageType) : HessianCodec :=
  NewHessianCodecCustom t (NewReaderSize [] 16) 0.

Definition one_byte_body_codec (t : PackageType) : HessianCodec :=
  NewStreamHessianCodecCustom t (NewReaderSize [([7], None)] 16) 1.

Definition sample_response : DubboResponse :=
  {| RspObj := any_int 0; Exception := None; Attachments := None |}.

Definition sample_service : Service :=
  {| Path := "p"; Interface := "i"; Group := "g"; Version := "v";
     Method := "m"; Timeout := 0 |}.

Definition heartbeat_header : DubboHeader :=
  {| SerialID := 2; Type_ := PackageHeartbeat; ID := 1; BodyLen := 0;
     ResponseStatus := 0 |}.

(** ** Readers and the bytes they will deliver *)

(** The bytes a reader has yet to deliver: those of its buffer, then those
    of its source. *)
Definition pending (r : Reader) : list byte :=
  buf_data r ++ concat (map fst (rd r)).

Definition no_error (e : option error) : bool :=
  match e with None => true | Some _ => false end.

(** No error is pending and none is scripted: what is left of the source
    is data, in any number of pieces, empty ones included. *)
Definition healthy (r : Reader) : bool :=
  no_error (rd_err r) && forallb (fun x => no_error (snd x)) (rd r).

(** Healthy, and every piece of the source holds a byte at least. *)
Definition chunky (r : Reader) : bool :=
  no_error (rd_err r)
  && forallb (fun x => no_error (snd x) && (0 <? length (fst x))%nat) (rd r).

(** The package types [ReadHeader] builds in an empty header: request,
    two-way request, and each with the heartbeat bit; response, response
    with exception, and each with the heartbeat bit. *)
Definition decodedTypes : list PackageType :=
  [0x02; 0x12; 0x0a; 0x1a; 0x04; 0x24; 0x0c; 0x2c].

(** A session with another package type. *)
Definition with_pkgType (h : HessianCodec) (t : PackageType) : HessianCodec :=
  {| pkgType := t; reader := reader h; bodyLen := bodyLen h; stream := stream h |}.

(** What a body read shows its caller, the session's reader included but
    not the package type the session remembers. *)
Definition seen {A B : Type} (res : outcome (A * HessianCodec * B))
  : outcome (A * Reader * B) :=
  '(a, h, b) <- res ;; Returns (a, reader h, b).

(** A streaming session whose body of four bytes arrives in pieces, one of
    them empty, with a byte of the next frame behind it; and a buffered
    session with the same five bytes in its buffer. *)
Definition pieces_codec : HessianCodec :=
  NewStreamHessianCodecCustom PackageRequest
    (NewReaderSize [([1; 2], None); ([], None); ([3; 4; 5], None)] 16) 4.

Definition buffered_body_codec (t : PackageType) : HessianCodec :=
  NewHessianCodecCustom t
    {| buf_data := [1; 2; 3; 4; 5]; buf_size := 16; rd_err := None;
       rd := [([6], None)] |} 4.

(** The package type lines 165-182 read off bytes 2 and 3 of a header,
    before it is or-ed into the header's type. *)
Definition typeOfBytes {K : Consts} (buf : list byte) : PackageType :=
  Z.lor (if Z.land (at_ buf 2) FLAG_EVENT =? Zero then 0 else PackageHeartbeat)
        (if Z.land (at_ buf 2) FLAG_REQUEST =? Zero
         then Z.lor PackageResponse
                (if at_ buf 3 =? Response_OK then 0 else PackageResponse_Exception)
         else Z.lor PackageRequest
                (if Z.land (at_ buf 2) FLAG_TWOWAY =? Zero
                 then 0 else PackageRequest_TwoWay)).

(** [ReadHeader] recorded the decoded type and length in the session: it
    returned nil or "body not enough". *)
Definition recorded (e : option error) : bool :=
  match e with
  | None => true
  | Some ErrBodyNotEnough => true
  | Some _ => false
  end.

(** A header over the constants [K] with serialization id 0, in the buffer
    of a buffered session. *)
Definition zero_serial_header (K : Consts) : list byte :=
  [MAGIC_HIGH; MAGIC_LOW; 0x80; 0; 0; 0; 0; 0; 0; 0; 0; 0; 0; 0; 0; 0].

Definition zero_serial_codec : HessianCodec :=
  NewHessianCodec
    {| buf_data := zero_serial_header dubbo ++ [9]; buf_size := 4096;
       rd_err := None; rd := [] |}.

(** A header used before: it holds a request with status 7. *)
Definition used_header : DubboHeader :=
  {| SerialID := 3; Type_ := PackageRequest; ID := 1; BodyLen := 8;
     ResponseStatus := 7 |}.

(** Sessions over a reader with an empty buffer whose source fails at once
    with the error 3. *)
Definition failing_reader : Reader :=
  NewReaderSize [([], Some (SourceError 3)); ([1], None)] 4096.

(** A buffered session whose source gives eighteen bytes in pieces of five
    and thirteen. *)
Definition two_piece_codec : HessianCodec :=
  NewHessianCodec
    (NewReaderSize
       [([1; 2; 3; 4; 5], None);
        ([6; 7; 8; 9; 10; 11; 12; 13; 14; 15; 16; 17; 18], None)] 16).

(** What a session can take its body from: in streaming mode all that is
    pending, in buffered mode the buffer. *)
Definition available (streaming : bool) (r : Reader) : list byte :=
  if streaming then pending r else buf_data r.

(** What [ReadAttachments] shows its caller, as [seen] for [ReadBody]. *)
Definition seen_attachments (res : outcome (GoMap * option error * HessianCodec))
  : outcome (GoMap * option error * Reader) :=
  '(m, e, h) <- res ;; Returns (m, e, reader h).

(** The header [ReadHeader] fills from the layout of the fields [f]. *)
Definition decodedHeader {K : Consts} (f : HeaderFields) : DubboHeader :=
  {| SerialID := f_serial f; Type_ := spec_packageType f; ID := f_id f;
     BodyLen := f_len f;
     ResponseStatus := if f_request f then 0 else f_status f |}.

(** * Facts about the buffered reader *)

Module BufioFacts.

Lemma Peek_loop_eq (fuel : nat) (n : Z) (b : Reader) :
  Peek_loop fuel n b =
  if (Buffered b <? n) && (Buffered b <? Size b)
     && match rd_err b with None => true | Some _ => false end
  then match fuel with
       | O => OutOfFuel
       | S fuel' => b' <- fill b ;; Peek_loop fuel' n b'
       end
  else Returns b.
Proof. destruct fuel; reflexivity. Qed.

Lemma fill_loop_0 (b : Reader) :
  fill_loop 0 b = {| buf_data := buf_data b; buf_size := buf_size b;
                     rd_err := Some io_ErrNoProgress; rd := rd b |}.
Proof. reflexivity. Qed.

Lemma fill_loop_S (i : nat) (b : Reader) :
  fill_loop (S i) b =
  let '(bs, e, s') := src_Read (buf_size b - length (buf_data b)) (rd b) in
  let b' := {| buf_data := buf_data b ++ bs; buf_size := buf_size b;
               rd_err := rd_err b; rd := s' |} in
  match e with
  | Some err => {| buf_data := buf_data b'; buf_size := buf_size b';
                   rd_err := Some err; rd := rd b' |}
  | None => if (0 <? length bs)%nat then b' else fill_loop i b'
  end.
Proof. reflexivity. Qed.

(** [fill] keeps the capacity, and comes back with an error pending or with
    more bytes than before. *)
Lemma fill_loop_size (i : nat) : forall b, buf_size (fill_loop i b) = buf_size b.
Proof.
  induction i as [|i IH]; intros b; [reflexivity|].
  rewrite fill_loop_S.
  destruct (src_Read _ _) as [[bs e] s']. cbv zeta.
  destruct e; [reflexivity|].
  destruct (0 <? length bs)%nat; [reflexivity|].
  rewrite IH. reflexivity.
Qed.

Lemma fill_loop_progress (i : nat) : forall b,
  rd_err (fill_loop i b) <> None \/
  (length (buf_data b) < length (buf_data (fill_loop i b)))%nat.
Proof.
  induction i as [|i IH]; intros b.
  - left. rewrite fill_loop_0. discriminate.
  - rewrite fill_loop_S.
    destruct (src_Read _ _) as [[bs e] s']. cbv zeta.
    destruct e.
    + left. discriminate.
    + destruct (Nat.ltb_spec 0 (length bs)).
      * right. cbn [buf_data]. rewrite length_app. lia.
      * match goal with |- context [fill_loop i ?x] => destruct (IH x) as [He|Hl] end.
        -- left. exact He.
        -- right. cbn [buf_data] in Hl. rewrite length_app in Hl. lia.
Qed.

(** The fuel [Peek] gives its loop is enough. *)
Lemma Peek_loop_total (fuel : nat) : forall n b,
  (buf_size b - length (buf_data b) <= fuel)%nat ->
  Peek_loop fuel n b <> OutOfFuel.
Proof.
  induction fuel as [|fuel IH]; intros n b Hfuel; rewrite Peek_loop_eq.
  - destruct (Z.ltb_spec (Buffered b) n); simpl; [|discriminate].
    destruct (Z.ltb_spec (Buffered b) (Size b)) as [Hlt|]; simpl; [|discriminate].
    unfold Buffered, Size in Hlt. lia.
  - destruct (Z.ltb_spec (Buffered b) n); simpl; [|discriminate].
    destruct (Z.ltb_spec (Buffered b) (Size b)) as [Hlt|]; simpl; [|discriminate].
    destruct (rd_err b); [discriminate|].
    unfold Buffered, Size in Hlt.
    unfold fill.
    destruct (Nat.leb_spec (buf_size b) (length (buf_data b))); [lia|].
    cbn [bind].
    destruct (fill_loop_progress maxConsecutiveEmptyReads b) as [He|Hl].
    + rewrite Peek_loop_eq.
      destruct (rd_err (fill_loop maxConsecutiveEmptyReads b)); [|congruence].
      rewrite andb_false_r. discriminate.
    + apply IH. rewrite fill_loop_size. lia.
Qed.

Lemma Peek_total (b : Reader) (n : Z) : Peek b n <> OutOfFuel.
Proof.
  unfold Peek. destruct (n <? 0); [discriminate|].
  pose proof (@Peek_loop_total (buf_size b) n b) as Hl.
  destruct (Peek_loop (buf_size b) n b) as [b1| |]; simpl.
  - destruct (Size b1 <? n); [discriminate|].
    destruct (Buffered b1 <? n); discriminate.
  - discriminate.
  - exfalso. apply Hl; [lia|reflexivity].
Qed.

(** With [n] bytes in the buffer, [Peek] hands out the first [n] and leaves
    the reader as it is. *)
Lemma Peek_buffered (b : Reader) (n : Z) :
  0 <= n <= Buffered b -> n <= Size b ->
  Peek b n = Returns (firstn (Z.to_nat n) (buf_data b), None, b).
Proof.
  intros Hn Hs. unfold Peek.
  destruct (Z.ltb_spec n 0); [lia|].
  rewrite Peek_loop_eq.
  destruct (Z.ltb_spec (Buffered b) n); [lia|]. simpl.
  destruct (Z.ltb_spec (Size b) n); [lia|].
  destruct (Z.ltb_spec (Buffered b) n); [lia|]. reflexivity.
Qed.

(** A [Peek] that returns no error returned exactly [n] bytes, the head of
    the buffer it leaves. *)
Lemma Peek_ok (b b' : Reader) (n : Z) (buf : list byte) :
  Peek b n = Returns (buf, None, b') ->
  0 <= n <= Buffered b' /\ n <= Size b' /\
  buf = firstn (Z.to_nat n) (buf_data b') /\ Z.of_nat (length buf) = n.
Proof.
  unfold Peek. destruct (Z.ltb_spec n 0); [discriminate|].
  destruct (Peek_loop (buf_size b) n b) as [b1| |]; simpl; try discriminate.
  destruct (Z.ltb_spec (Size b1) n); [discriminate|].
  destruct (Z.ltb_spec (Buffered b1) n); [discriminate|].
  intros E. inversion E; subst. unfold Buffered in *.
  repeat split; try lia.
  rewrite length_firstn. lia.
Qed.

Lemma Discard_buffered (b : Reader) (n : Z) :
  0 <= n <= Buffered b ->
  Discard b n =
  Returns (n, None,
           {| buf_data := skipn (Z.to_nat n) (buf_data b); buf_size := buf_size b;
              rd_err := rd_err b; rd := rd b |}).
Proof.
  intros Hn. unfold Discard.
  destruct (Z.ltb_spec n 0); [lia|].
  destruct (Z.eqb_spec n 0) as [->|Hn0].
  - simpl. destruct b; reflexivity.
  - unfold Discard_fuel. simpl.
    destruct (Z.eqb_spec (Buffered b) 0); [lia|]. simpl.
    rewrite Z.min_r by lia.
    rewrite Z.sub_diag. simpl. reflexivity.
Qed.

Lemma Discard_loop_S (fuel : nat) (n remain : Z) (b : Reader) :
  Discard_loop (S fuel) n remain b =
  (b1 <- (if Buffered b =? 0 then fill b else Returns b) ;;
   let skip := Z.min (Buffered b1) remain in
   let b2 := {| buf_data := skipn (Z.to_nat skip) (buf_data b1);
                buf_size := buf_size b1; rd_err := rd_err b1; rd := rd b1 |} in
   let remain' := remain - skip in
   if remain' =? 0 then Returns (n, None, b2)
   else match rd_err b2 with
        | Some _ => let '(e, b3) := readErr b2 in Returns (n - remain', e, b3)
        | None => Discard_loop fuel n remain' b2
        end).
Proof. reflexivity. Qed.

Lemma Discard_loop_total (fuel : nat) : forall n remain b,
  0 < remain -> (Z.to_nat remain < fuel)%nat ->
  Discard_loop fuel n remain b <> OutOfFuel.
Proof.
  induction fuel as [|fuel IH]; intros n remain b Hpos Hfuel; [lia|].
  rewrite Discard_loop_S.
  assert (Hb1 : exists b1,
             (if Buffered b =? 0 then fill b else Returns b) = Returns b1 /\
             (rd_err b1 <> None \/ 0 < Buffered b1)
             \/ exists msg, (if Buffered b =? 0 then fill b else Returns b) = Panics msg).
  { destruct (Z.eqb_spec (Buffered b) 0) as [Hz|Hz].
    - unfold fill.
      destruct (buf_size b <=? length (buf_data b))%nat.
      + exists b. right. eexists. reflexivity.
      + exists (fill_loop maxConsecutiveEmptyReads b). left.
        split; [reflexivity|].
        destruct (fill_loop_progress maxConsecutiveEmptyReads b) as [He|Hl].
        * left. exact He.
        * right. unfold Buffered. lia.
    - exists b. left. split; [reflexivity|]. right. unfold Buffered in *. lia. }
  destruct Hb1 as [b1 [[E Hb]|[msg E]]]; rewrite E; cbn [bind]; [|discriminate].
  cbv zeta. cbn [rd_err].
  destruct (Z.eqb_spec (remain - Z.min (Buffered b1) remain) 0); [discriminate|].
  destruct (rd_err b1) eqn:He; [discriminate|].
  destruct Hb as [Hb|Hb]; [congruence|].
  apply IH; lia.
Qed.

Lemma Discard_total (b : Reader) (n : Z) : Discard b n <> OutOfFuel.
Proof.
  unfold Discard.
  destruct (Z.ltb_spec n 0); [discriminate|].
  destruct (Z.eqb_spec n 0); [discriminate|].
  apply Discard_loop_total; unfold Discard_fuel; lia.
Qed.

(** [Read] always returns; it copies at most [k] bytes. *)
Lemma Read_returns (b : Reader) (k : nat) : exists res, Read b k = Returns res.
Proof.
  unfold Read.
  destruct (k =? 0)%nat.
  - destruct (0 <? Buffered b); simpl; eauto.
  - destruct (buf_data b); [|eauto].
    destruct (rd_err b); simpl; [eauto|].
    destruct (buf_size b <=? k)%nat.
    + destruct (src_Read k (rd b)) as [[bs e] s']. eauto.
    + destruct (src_Read (buf_size b) (rd b)) as [[bs e] s'].
      destruct bs; eauto.
Qed.

Lemma src_Read_length (k : nat) (s s' : Source) (bs : list byte) (e : option error) :
  src_Read k s = (bs, e, s') -> (length bs <= k)%nat.
Proof.
  unfold src_Read. destruct s as [|[bs0 e0] s0].
  - intros E. inversion E. simpl. lia.
  - destruct (Nat.leb_spec (length bs0) k); intros E; inversion E; subst.
    + assumption.
    + rewrite length_firstn. lia.
Qed.

Lemma Read_length (b b' : Reader) (k : nat) (d : list byte) (e : option error) :
  Read b k = Returns (d, e, b') -> (length d <= k)%nat.
Proof.
  unfold Read.
  destruct (k =? 0)%nat.
  - destruct (0 <? Buffered b); simpl; intros E; inversion E; simpl; lia.
  - destruct (buf_data b) as [|x l] eqn:Hd.
    + destruct (rd_err b); simpl.
      * intros E. inversion E. simpl. lia.
      * destruct (buf_size b <=? k)%nat.
        -- destruct (src_Read k (rd b)) as [[bs e1] s'] eqn:Hs.
           intros E. inversion E; subst. eapply src_Read_length. exact Hs.
        -- destruct (src_Read (buf_size b) (rd b)) as [[bs e1] s'].
           destruct bs; intros E; inversion E; subst.
           ++ simpl. lia.
           ++ rewrite length_firstn. lia.
    + intros E. inversion E; subst. rewrite length_firstn. lia.
Qed.

(** A [Read] for [k > 0] bytes that returns no error copied a byte or used
    up a result of the source; it never lengthens the script. *)
Lemma Read_progress (b b' : Reader) (k : nat) (d : list byte) :
  (0 < k)%nat ->
  Read b k = Returns (d, None, b') ->
  (length (rd b') <= length (rd b))%nat /\
  (1 <= length d + (length (rd b) - length (rd b')))%nat.
Proof.
  intros Hk. unfold Read, readErr.
  destruct (Nat.eqb_spec k 0); [lia|].
  destruct (buf_data b) as [|x l] eqn:Hd.
  - destruct (rd_err b); [discriminate|].
    destruct (Nat.leb_spec (buf_size b) k) as [Hsz|Hsz].
    + unfold src_Read. destruct (rd b) as [|[bs0 e0] s0]; [discriminate|].
      destruct (Nat.leb_spec (length bs0) k); intros E; inversion E; subst;
        cbn [rd length].
      * lia.
      * rewrite length_firstn. lia.
    + unfold src_Read. destruct (rd b) as [|[bs0 e0] s0]; [discriminate|].
      destruct (Nat.leb_spec (length bs0) (buf_size b)).
      * destruct bs0 as [|x0 bs0]; intros E; inversion E; subst; cbn [rd length].
        -- lia.
        -- rewrite length_firstn. cbn [length]. lia.
      * destruct (firstn (buf_size b) bs0) as [|x0 l0] eqn:Hf.
        -- apply (f_equal (@length byte)) in Hf. rewrite length_firstn in Hf.
           cbn [length] in Hf. lia.
        -- intros E; inversion E; subst; cbn [rd length].
           rewrite length_firstn. cbn [length]. lia.
  - intros E. inversion E; subst. cbn [rd].
    rewrite length_firstn. cbn [length]. lia.
Qed.

Lemma length_copy_at (buf d : list byte) (off : nat) :
  (off + length d <= length buf)%nat ->
  length (copy_at buf off d) = length buf.
Proof.
  intros H. unfold copy_at.
  rewrite !length_app, length_firstn, length_skipn. lia.
Qed.

End BufioFacts.

(** * Facts about the codec's readers *)

Module ReaderFacts.
Import BufioFacts.

Lemma readBody_loop_eq (fuel : nat) (len : Z) (buf : list byte) (readLen : Z) (r : Reader) :
  readBody_loop fuel len buf readLen r =
  if readLen <? len then
    match fuel with
    | O => OutOfFuel
    | S fuel' =>
        '(d, err, r') <- Read r (length buf - Z.to_nat readLen) ;;
        match err with
        | Some e => Returns (inl (WithStack e), r')
        | None =>
            readBody_loop fuel' len (copy_at buf (Z.to_nat readLen) d)
              (readLen + Z.of_nat (length d)) r'
        end
    end
  else Returns (inr buf, r).
Proof. destruct fuel; reflexivity. Qed.

(** The streaming loop returns within its fuel, and what it returns as the
    body has [len] bytes. *)
Lemma readBody_loop_sound (fuel : nat) : forall len buf readLen r,
  0 <= readLen <= len -> Z.of_nat (length buf) = len ->
  (Z.to_nat (len - readLen) + length (rd r) < fuel)%nat ->
  exists got r', readBody_loop fuel len buf readLen r = Returns (got, r') /\
    forall buf', got = inr buf' -> Z.of_nat (length buf') = len.
Proof.
  induction fuel as [|fuel IH]; intros len buf readLen r Hrl Hlen Hfuel; [lia|].
  rewrite readBody_loop_eq.
  destruct (Z.ltb_spec readLen len) as [Hlt|Hge].
  - destruct (Read_returns r (length buf - Z.to_nat readLen)) as [[[d e] r'] HR].
    rewrite HR. simpl.
    destruct e as [e|].
    + eexists _, _. split; [reflexivity|]. discriminate.
    + pose proof (Read_length _ _ HR) as Hd.
      assert (Hk : (0 < length buf - Z.to_nat readLen)%nat) by lia.
      destruct (Read_progress _ Hk HR) as [Hrd Hpr].
      apply IH.
      * lia.
      * rewrite length_copy_at; lia.
      * lia.
  - eexists _, _. split; [reflexivity|].
    intros buf' E. inversion E; subst. reflexivity.
Qed.

(** [readBodyBytes] returns, or panics on a negative length; a body it
    returns has exactly [bodyLen] bytes. *)
Lemma readBodyBytes_total (h : HessianCodec) : readBodyBytes h <> OutOfFuel.
Proof.
  unfold readBodyBytes.
  destruct (stream h).
  - destruct (Z.ltb_spec (bodyLen h) 0); [discriminate|].
    destruct (@readBody_loop_sound (readBody_fuel (bodyLen h) (reader h)) (bodyLen h)
                (repeat 0 (Z.to_nat (bodyLen h))) 0 (reader h))
      as (got & r' & E & _).
    + lia.
    + rewrite repeat_length. lia.
    + unfold readBody_fuel. rewrite Z.sub_0_r. lia.
    + rewrite E. discriminate.
  - destruct (Buffered (reader h) <? bodyLen h); [discriminate|].
    pose proof (@Peek_total (reader h) (bodyLen h)) as HP.
    destruct (Peek (reader h) (bodyLen h)) as [[[buf e] r1]| |]; simpl;
      try discriminate; [|congruence].
    destruct e; [discriminate|].
    pose proof (@Discard_total r1 (bodyLen h)) as HD.
    destruct (Discard r1 (bodyLen h)) as [[[k e] r2]| |]; simpl;
      try discriminate; [|congruence].
    destruct e; discriminate.
Qed.

Lemma readBodyBytes_length (h : HessianCodec) (buf : list byte) (r : Reader) :
  readBodyBytes h = Returns (inr buf, r) -> Z.of_nat (length buf) = bodyLen h.
Proof.
  unfold readBodyBytes.
  destruct (stream h).
  - destruct (Z.ltb_spec (bodyLen h) 0); [discriminate|].
    destruct (@readBody_loop_sound (readBody_fuel (bodyLen h) (reader h)) (bodyLen h)
                (repeat 0 (Z.to_nat (bodyLen h))) 0 (reader h))
      as (got & r' & E & Hlen).
    + lia.
    + rewrite repeat_length. lia.
    + unfold readBody_fuel. rewrite Z.sub_0_r. lia.
    + rewrite E. intros E'. inversion E'; subst. apply Hlen. reflexivity.
  - destruct (Buffered (reader h) <? bodyLen h); [discriminate|].
    destruct (Peek (reader h) (bodyLen h)) as [[[buf0 e] r1]| |] eqn:HP; simpl;
      try discriminate.
    destruct e; [discriminate|].
    destruct (Discard r1 (bodyLen h)) as [[[k e] r2]| |]; simpl; try discriminate.
    destruct e; [discriminate|].
    intros E. inversion E; subst.
    apply (Peek_ok _ _ HP).
Qed.

(** [readHeaderBytes] stays within the fuel of its loops as well. *)
Lemma readHeaderBytes_total (h : HessianCodec) : readHeaderBytes h <> OutOfFuel.
Proof.
  unfold readHeaderBytes.
  destruct (stream h).
  - destruct (Read_returns (reader h) (length (repeat 0 (Z.to_nat HEADER_LENGTH))))
      as [[[d1 e] r1] HR].
    rewrite HR. simpl.
    destruct e; [discriminate|].
    destruct (Z.of_nat (length d1) <? HEADER_LENGTH); [|discriminate].
    match goal with |- context [Read r1 ?k] =>
      destruct (Read_returns r1 k) as [[[d2 e2] r2] HR2]; rewrite HR2 end.
    simpl. destruct e2; discriminate.
  - destruct (Size (reader h) <? HEADER_LENGTH); [discriminate|].
    pose proof (@Peek_total (reader h) HEADER_LENGTH) as HP.
    destruct (Peek (reader h) HEADER_LENGTH) as [[[buf e] r1]| |]; simpl;
      try discriminate; [|congruence].
    destruct e; [discriminate|].
    pose proof (@Discard_total r1 HEADER_LENGTH) as HD.
    destruct (Discard r1 HEADER_LENGTH) as [[[k e] r2]| |]; simpl;
      try discriminate; [|congruence].
    destruct e; discriminate.
Qed.

(** With the sixteen header bytes at the head of the buffer, either mode
    hands out exactly those and leaves the rest of the buffer. *)
Lemma readHeaderBytes_buffered (h : HessianCodec) (hdr rest : list byte) :
  length hdr = 16%nat ->
  buf_data (reader h) = hdr ++ rest ->
  (16 <= buf_size (reader h))%nat ->
  readHeaderBytes h =
  Returns (inr hdr,
           {| buf_data := rest; buf_size := buf_size (reader h);
              rd_err := rd_err (reader h); rd := rd (reader h) |}).
Proof.
  intros Hlen Hdata Hsize.
  assert (Hfirst : firstn 16 (buf_data (reader h)) = hdr).
  { rewrite Hdata, <- Hlen, firstn_app, Nat.sub_diag, firstn_all. cbn [firstn].
    apply app_nil_r. }
  assert (Hskip : skipn 16 (buf_data (reader h)) = rest).
  { rewrite Hdata, <- Hlen, skipn_app, Nat.sub_diag, skipn_all. reflexivity. }
  unfold readHeaderBytes. destruct (stream h).
  - change (length (repeat 0 (Z.to_nat HEADER_LENGTH))) with 16%nat.
    unfold Read. cbn [Nat.eqb].
    destruct (buf_data (reader h)) as [|x l] eqn:Hd.
    + destruct hdr; discriminate.
    + rewrite Hfirst, Hskip. cbn [bind]. rewrite Hlen.
      change (Z.of_nat 16 <? HEADER_LENGTH) with false. cbv iota.
      unfold copy_at. rewrite Hlen.
      change (skipn (0 + 16) (repeat 0 (Z.to_nat HEADER_LENGTH))) with (@nil byte).
      cbn [firstn app]. rewrite app_nil_r. reflexivity.
  - assert (Hb : 16 <= Buffered (reader h)).
    { unfold Buffered. rewrite Hdata, length_app, Hlen. lia. }
    destruct (Z.ltb_spec (Size (reader h)) HEADER_LENGTH) as [Hs|Hs];
      [unfold Size, HEADER_LENGTH in Hs; lia|].
    rewrite Peek_buffered by (unfold HEADER_LENGTH, Size; lia).
    cbn [bind].
    rewrite Discard_buffered by (unfold HEADER_LENGTH; lia).
    cbn [bind].
    change (Z.to_nat HEADER_LENGTH) with 16%nat.
    rewrite Hfirst, Hskip. reflexivity.
Qed.

End ReaderFacts.

(** * Facts about bytes and bits *)

Module BitFacts.

Lemma isByte_range (b : Z) : isByte b = true <-> 0 <= b < 256.
Proof. unfold isByte. rewrite andb_true_iff, Z.leb_le, Z.ltb_lt. tauto. Qed.

Lemma land_low_high (a q s : Z) :
  0 <= s -> 0 <= a < 2 ^ s -> Z.land a (q * 2 ^ s) = 0.
Proof.
  intros Hs Ha. apply Z.bits_inj'. intros i Hi.
  rewrite Z.land_spec, Z.bits_0.
  destruct (Z.lt_ge_cases i s).
  - rewrite Z.mul_pow2_bits_low by lia. apply andb_false_r.
  - replace a with (a mod 2 ^ s) by (apply Z.mod_small; lia).
    rewrite Z.mod_pow2_bits_high by lia. reflexivity.
Qed.

(** Bits that do not overlap: [lor] is the sum. *)
Lemma lor_add_high (a q s : Z) :
  0 <= s -> 0 <= a < 2 ^ s -> Z.lor a (q * 2 ^ s) = a + q * 2 ^ s.
Proof.
  intros Hs Ha.
  pose proof (Z.add_lor_land a (q * 2 ^ s)) as E.
  rewrite land_low_high in E by assumption. lia.
Qed.

Lemma Uint32_sum (b0 b1 b2 b3 : Z) (rest : list byte) :
  0 <= b0 < 256 -> 0 <= b1 < 256 -> 0 <= b2 < 256 -> 0 <= b3 < 256 ->
  BigEndian_Uint32 (b0 :: b1 :: b2 :: b3 :: rest) = horner [b0; b1; b2; b3].
Proof.
  intros H0 H1 H2 H3. unfold BigEndian_Uint32, at_, horner. cbn [nth fold_left].
  rewrite !Z.shiftl_mul_pow2 by lia.
  rewrite (@lor_add_high (b1 * 2 ^ 16) b0 24) by lia.
  replace (b1 * 2 ^ 16 + b0 * 2 ^ 24) with ((b1 + b0 * 256) * 2 ^ 16) by ring.
  rewrite (@lor_add_high (b2 * 2 ^ 8) _ 16) by lia.
  replace (b2 * 2 ^ 8 + (b1 + b0 * 256) * 2 ^ 16)
    with ((b2 + (b1 + b0 * 256) * 256) * 2 ^ 8) by ring.
  rewrite (@lor_add_high b3 _ 8) by lia.
  ring.
Qed.

Lemma Uint64_sum (b0 b1 b2 b3 b4 b5 b6 b7 : Z) (rest : list byte) :
  0 <= b0 < 256 -> 0 <= b1 < 256 -> 0 <= b2 < 256 -> 0 <= b3 < 256 ->
  0 <= b4 < 256 -> 0 <= b5 < 256 -> 0 <= b6 < 256 -> 0 <= b7 < 256 ->
  BigEndian_Uint64 (b0 :: b1 :: b2 :: b3 :: b4 :: b5 :: b6 :: b7 :: rest)
  = horner [b0; b1; b2; b3; b4; b5; b6; b7].
Proof.
  intros H0 H1 H2 H3 H4 H5 H6 H7. unfold BigEndian_Uint64, at_. cbn [nth].
  rewrite !Z.shiftl_mul_pow2 by lia.
  rewrite (@lor_add_high (b1 * 2 ^ 48) b0 56) by lia.
  replace (b1 * 2 ^ 48 + b0 * 2 ^ 56) with (horner [b0; b1] * 2 ^ 48)
    by (unfold horner; cbn [fold_left]; ring).
  assert (R1 : 0 <= horner [b0; b1] < 2 ^ 16) by (unfold horner; cbn [fold_left]; lia).
  rewrite (@lor_add_high (b2 * 2 ^ 40) _ 48) by lia.
  replace (b2 * 2 ^ 40 + horner [b0; b1] * 2 ^ 48) with (horner [b0; b1; b2] * 2 ^ 40)
    by (unfold horner; cbn [fold_left]; ring).
  assert (R2 : 0 <= horner [b0; b1; b2] < 2 ^ 24)
    by (unfold horner in *; cbn [fold_left] in *; lia).
  rewrite (@lor_add_high (b3 * 2 ^ 32) _ 40) by lia.
  replace (b3 * 2 ^ 32 + horner [b0; b1; b2] * 2 ^ 40)
    with (horner [b0; b1; b2; b3] * 2 ^ 32) by (unfold horner; cbn [fold_left]; ring).
  rewrite (@lor_add_high (b4 * 2 ^ 24) _ 32) by lia.
  replace (b4 * 2 ^ 24 + horner [b0; b1; b2; b3] * 2 ^ 32)
    with (horner [b0; b1; b2; b3; b4] * 2 ^ 24) by (unfold horner; cbn [fold_left]; ring).
  rewrite (@lor_add_high (b5 * 2 ^ 16) _ 24) by lia.
  replace (b5 * 2 ^ 16 + horner [b0; b1; b2; b3; b4] * 2 ^ 24)
    with (horner [b0; b1; b2; b3; b4; b5] * 2 ^ 16) by (unfold horner; cbn [fold_left]; ring).
  rewrite (@lor_add_high (b6 * 2 ^ 8) _ 16) by lia.
  replace (b6 * 2 ^ 8 + horner [b0; b1; b2; b3; b4; b5] * 2 ^ 16)
    with (horner [b0; b1; b2; b3; b4; b5; b6] * 2 ^ 8) by (unfold horner; cbn [fold_left]; ring).
  rewrite (@lor_add_high b7 _ 8) by lia.
  unfold horner; cbn [fold_left]; ring.
Qed.

Lemma be_bytes_fold (n : nat) : forall v acc,
  fold_left (fun a b => a * 256 + b) (be_bytes n v) acc
  = acc * 256 ^ Z.of_nat n + v mod 256 ^ Z.of_nat n.
Proof.
  induction n as [|n IH]; intros v acc.
  - simpl. rewrite Z.mod_1_r. lia.
  - cbn [be_bytes fold_left]. rewrite IH.
    rewrite Nat2Z.inj_succ, Z.pow_succ_r by lia.
    rewrite (Z.mul_comm 256 (256 ^ Z.of_nat n)).
    rewrite Z.rem_mul_r by lia.
    ring.
Qed.

Lemma horner_be_bytes (n : nat) (v : Z) :
  horner (be_bytes n v) = v mod 256 ^ Z.of_nat n.
Proof. unfold horner. rewrite be_bytes_fold. lia. Qed.

Lemma be_byte_range (v : Z) (k : nat) : 0 <= (v / 256 ^ Z.of_nat k) mod 256 < 256.
Proof. apply Z.mod_pos_bound. lia. Qed.

(** Reading back the big-endian bytes of a 64-bit and of a 32-bit value. *)
Lemma Uint64_be_bytes (v : Z) (rest : list byte) :
  0 <= v < 2 ^ 64 -> BigEndian_Uint64 (be_bytes 8 v ++ rest) = v.
Proof.
  intros Hv.
  transitivity (horner (be_bytes 8 v)).
  - cbn [be_bytes app]. apply Uint64_sum; apply be_byte_range.
  - rewrite horner_be_bytes. apply Z.mod_small. simpl. lia.
Qed.

Lemma Uint32_be_bytes (v : Z) (rest : list byte) :
  0 <= v < 2 ^ 32 -> BigEndian_Uint32 (be_bytes 4 v ++ rest) = v.
Proof.
  intros Hv.
  transitivity (horner (be_bytes 4 v)).
  - cbn [be_bytes app]. apply Uint32_sum; apply be_byte_range.
  - rewrite horner_be_bytes. apply Z.mod_small. simpl. lia.
Qed.

Lemma to_signed_small (bits v : Z) :
  0 < bits -> - 2 ^ (bits - 1) <= v < 2 ^ (bits - 1) ->
  to_signed bits (v mod 2 ^ bits) = v.
Proof.
  intros Hb Hv. unfold to_signed.
  assert (E : 2 ^ bits = 2 * 2 ^ (bits - 1)).
  { rewrite <- Z.pow_succ_r by lia. f_equal. lia. }
  rewrite Zplus_mod_idemp_l.
  rewrite Z.mod_small by lia. lia.
Qed.

Lemma to_signed_nonneg (bits v : Z) :
  0 < bits -> 0 <= v < 2 ^ (bits - 1) -> to_signed bits v = v.
Proof.
  intros Hb Hv.
  rewrite <- (@to_signed_small bits v) at 2 by lia.
  f_equal. symmetry. apply Z.mod_small.
  assert (E : 2 ^ bits = 2 * 2 ^ (bits - 1)).
  { rewrite <- Z.pow_succ_r by lia. f_equal. lia. }
  lia.
Qed.

End BitFacts.

(** * The header decoder on the layout of section 4.1 *)

Module LayoutFacts.
Import BitFacts.

Section WithConsts.

Context {K : Consts}.
Hypothesis HK : consts_ok K = true.

Lemma consts_ok_flags :
  (FLAG_EVENT <> 0 /\ FLAG_REQUEST <> 0 /\ FLAG_TWOWAY <> 0) /\
  (Z.land FLAG_EVENT SERIAL_MASK = 0 /\ Z.land FLAG_REQUEST SERIAL_MASK = 0 /\
   Z.land FLAG_TWOWAY SERIAL_MASK = 0) /\
  (Z.land FLAG_EVENT FLAG_REQUEST = 0 /\ Z.land FLAG_EVENT FLAG_TWOWAY = 0 /\
   Z.land FLAG_REQUEST FLAG_TWOWAY = 0).
Proof.
  pose proof HK as H. unfold consts_ok in H.
  repeat (apply andb_true_iff in H; let H' := fresh "H" in destruct H as [H H']).
  repeat match goal with
         | X : negb _ = true |- _ => apply negb_true_iff, Z.eqb_neq in X
         | X : (_ =? _) = true |- _ => apply Z.eqb_eq in X
         end.
  tauto.
Qed.

Lemma land_serial_flag (s F : Z) :
  1 <= s <= 31 -> Z.land F SERIAL_MASK = 0 -> Z.land s F = 0.
Proof.
  intros Hs HF.
  assert (E : Z.land s SERIAL_MASK = s).
  { change SERIAL_MASK with (Z.ones 5). rewrite Z.land_ones by lia.
    apply Z.mod_small. simpl. lia. }
  rewrite <- E, <- Z.land_assoc, (Z.land_comm SERIAL_MASK F), HF.
  apply Z.land_0_r.
Qed.

Section Flags.

Variable f : HeaderFields.
Hypothesis Hserial : 1 <= f_serial f <= 31.

Lemma flagByte_serial : Z.land (spec_flagByte f) SERIAL_MASK = f_serial f.
Proof.
  destruct consts_ok_flags as (_ & (He & Hr & Ht) & _).
  unfold spec_flagByte. rewrite !Z.land_lor_distr_l.
  replace (Z.land (if f_event f then FLAG_EVENT else 0) SERIAL_MASK) with 0
    by (destruct (f_event f); [symmetry; exact He | reflexivity]).
  replace (Z.land (if f_request f then FLAG_REQUEST else 0) SERIAL_MASK) with 0
    by (destruct (f_request f); [symmetry; exact Hr | reflexivity]).
  replace (Z.land (if f_twoway f then FLAG_TWOWAY else 0) SERIAL_MASK) with 0
    by (destruct (f_twoway f); [symmetry; exact Ht | reflexivity]).
  rewrite !Z.lor_0_r.
  change SERIAL_MASK with (Z.ones 5). rewrite Z.land_ones by lia.
  apply Z.mod_small. simpl. lia.
Qed.

Lemma flagByte_event :
  (Z.land (spec_flagByte f) FLAG_EVENT =? Zero) = negb (f_event f).
Proof.
  destruct consts_ok_flags as ((Ne & Nr & Nt) & (He & Hr & Ht) & (Her & Het & Hrt)).
  unfold spec_flagByte. rewrite !Z.land_lor_distr_l.
  rewrite (@land_serial_flag (f_serial f) FLAG_EVENT Hserial He).
  replace (Z.land (if f_request f then FLAG_REQUEST else 0) FLAG_EVENT) with 0
    by (destruct (f_request f); [rewrite Z.land_comm; symmetry; exact Her | reflexivity]).
  replace (Z.land (if f_twoway f then FLAG_TWOWAY else 0) FLAG_EVENT) with 0
    by (destruct (f_twoway f); [rewrite Z.land_comm; symmetry; exact Het | reflexivity]).
  rewrite !Z.lor_0_r, Z.lor_0_l.
  destruct (f_event f); simpl.
  - rewrite Z.land_diag. apply Z.eqb_neq. exact Ne.
  - reflexivity.
Qed.

Lemma flagByte_request :
  (Z.land (spec_flagByte f) FLAG_REQUEST =? Zero) = negb (f_request f).
Proof.
  destruct consts_ok_flags as ((Ne & Nr & Nt) & (He & Hr & Ht) & (Her & Het & Hrt)).
  unfold spec_flagByte. rewrite !Z.land_lor_distr_l.
  rewrite (@land_serial_flag (f_serial f) FLAG_REQUEST Hserial Hr).
  replace (Z.land (if f_event f then FLAG_EVENT else 0) FLAG_REQUEST) with 0
    by (destruct (f_event f); [symmetry; exact Her | reflexivity]).
  replace (Z.land (if f_twoway f then FLAG_TWOWAY else 0) FLAG_REQUEST) with 0
    by (destruct (f_twoway f); [rewrite Z.land_comm; symmetry; exact Hrt | reflexivity]).
  rewrite !Z.lor_0_r, Z.lor_0_l.
  destruct (f_request f); simpl.
  - rewrite Z.land_diag. apply Z.eqb_neq. exact Nr.
  - reflexivity.
Qed.

Lemma flagByte_twoway :
  (Z.land (spec_flagByte f) FLAG_TWOWAY =? Zero) = negb (f_twoway f).
Proof.
  destruct consts_ok_flags as ((Ne & Nr & Nt) & (He & Hr & Ht) & (Her & Het & Hrt)).
  unfold spec_flagByte. rewrite !Z.land_lor_distr_l.
  rewrite (@land_serial_flag (f_serial f) FLAG_TWOWAY Hserial Ht).
  replace (Z.land (if f_event f then FLAG_EVENT else 0) FLAG_TWOWAY) with 0
    by (destruct (f_event f); [symmetry; exact Het | reflexivity]).
  replace (Z.land (if f_request f then FLAG_REQUEST else 0) FLAG_TWOWAY) with 0
    by (destruct (f_request f); [symmetry; exact Hrt | reflexivity]).
  rewrite !Z.lor_0_r, Z.lor_0_l.
  destruct (f_twoway f); simpl.
  - rewrite Z.land_diag. apply Z.eqb_neq. exact Nt.
  - reflexivity.
Qed.

End Flags.

End WithConsts.

End LayoutFacts.

(** * Decoding a header *)

Module HeaderFacts.
Import BitFacts LayoutFacts.

Lemma fields_ok_spec (a : Arch) (f : HeaderFields) :
  fields_ok a f = true ->
  1 <= f_serial f <= 31 /\ 0 <= f_status f < 256 /\
  - 2 ^ 63 <= f_id f < 2 ^ 63 /\
  0 <= f_len f < 2 ^ 32 /\ f_len f < 2 ^ (intBits a - 1).
Proof.
  unfold fields_ok. intros H.
  repeat (apply andb_true_iff in H; let H' := fresh "H" in destruct H as [H H']).
  apply isByte_range in H5.
  repeat match goal with
         | X : (_ <=? _) = true |- _ => apply Z.leb_le in X
         | X : (_ <? _) = true |- _ => apply Z.ltb_lt in X
         end.
  lia.
Qed.

(** The decoder on the bytes of the layout: every field comes back, the
    status only for a response. *)
Lemma decodeHeader_encoded (K : Consts) (a : Arch) (f : HeaderFields) :
  consts_ok K = true -> fields_ok a f = true ->
  decodeHeader a (spec_encodeHeader f) emptyHeader =
  (None, {| SerialID := f_serial f; Type_ := spec_packageType f; ID := f_id f;
            BodyLen := f_len f;
            ResponseStatus := if f_request f then 0 else f_status f |}).
Proof.
  intros HK Hf.
  destruct (fields_ok_spec _ _ Hf) as (Hs & Hst & Hid & Hlen & Hint).
  unfold decodeHeader.
  change (at_ (spec_encodeHeader f) 0) with MAGIC_HIGH.
  change (at_ (spec_encodeHeader f) 1) with MAGIC_LOW.
  change (at_ (spec_encodeHeader f) 2) with (spec_flagByte f).
  change (at_ (spec_encodeHeader f) 3) with (f_status f).
  change (skipn 4 (spec_encodeHeader f))
    with (be_bytes 8 (f_id f mod 2 ^ 64) ++ be_bytes 4 (f_len f)).
  change (skipn 12 (spec_encodeHeader f)) with (be_bytes 4 (f_len f) ++ []).
  rewrite !Z.eqb_refl. cbn [negb andb].
  rewrite (flagByte_event HK f Hs), (flagByte_request HK f Hs), (flagByte_twoway HK f Hs).
  rewrite !negb_involutive.
  unfold setSerialID at 1. cbn [SerialID].
  rewrite (flagByte_serial HK f Hs).
  destruct (Z.eqb_spec (f_serial f) Zero) as [E|_]; [unfold Zero in E; lia|].
  rewrite Uint32_be_bytes by lia.
  rewrite Uint64_be_bytes by (apply Z.mod_pos_bound; lia).
  unfold int64_of_uint64, int_of_uint32.
  rewrite to_signed_small by lia.
  rewrite to_signed_nonneg by (destruct a; simpl in *; lia).
  unfold spec_packageType.
  destruct (f_event f), (f_request f), (f_twoway f);
    cbn [orType setSerialID setResponseStatus setID setBodyLen
         SerialID Type_ ID BodyLen ResponseStatus emptyHeader];
    try destruct (Z.eqb_spec (f_status f) Response_OK);
    cbn [negb orType setSerialID setResponseStatus setID setBodyLen
         SerialID Type_ ID BodyLen ResponseStatus emptyHeader];
    (destruct (Z.ltb_spec (f_len f) 0); [lia|]); reflexivity.
Qed.

(** When the decoder accepts: the magic check lets the header through, the
    serialization id is not zero and the body length is not negative.  The
    fields it then fills are the ones read off the bytes. *)
Lemma decodeHeader_accepts (K : Consts) (a : Arch) (buf : list byte)
  (header : DubboHeader) :
  at_ buf 0 = MAGIC_HIGH \/ at_ buf 1 = MAGIC_LOW ->
  Z.land (at_ buf 2) SERIAL_MASK <> 0 ->
  0 <= int_of_uint32 a (BigEndian_Uint32 (skipn 12 buf)) ->
  exists hd,
    decodeHeader a buf header = (None, hd) /\
    SerialID hd = Z.land (at_ buf 2) SERIAL_MASK /\
    ID hd = int64_of_uint64 (BigEndian_Uint64 (skipn 4 buf)) /\
    BodyLen hd = int_of_uint32 a (BigEndian_Uint32 (skipn 12 buf)).
Proof.
  intros Hm Hs Hl. unfold decodeHeader.
  assert (Em : negb (at_ buf 0 =? MAGIC_HIGH) && negb (at_ buf 1 =? MAGIC_LOW) = false).
  { destruct Hm as [E|E]; rewrite E, Z.eqb_refl; simpl;
      [reflexivity | apply andb_false_r]. }
  rewrite Em. cbn [SerialID setSerialID].
  destruct (Z.eqb_spec (Z.land (at_ buf 2) SERIAL_MASK) Zero) as [E|_];
    [contradiction|].
  destruct (Z.land (at_ buf 2) FLAG_EVENT =? Zero),
    (Z.land (at_ buf 2) FLAG_REQUEST =? Zero),
    (Z.land (at_ buf 2) FLAG_TWOWAY =? Zero); cbn [negb];
    cbn [orType setSerialID setResponseStatus setID setBodyLen
         SerialID Type_ ID BodyLen ResponseStatus];
    try destruct (at_ buf 3 =? Response_OK); cbn [negb];
    cbn [orType setSerialID setResponseStatus setID setBodyLen
         SerialID Type_ ID BodyLen ResponseStatus];
    (destruct (Z.ltb_spec (int_of_uint32 a (BigEndian_Uint32 (skipn 12 buf))) 0);
     [lia|]); eexists; repeat split.
Qed.

(** The errors of the decoder: an illegal package, or a message about the
    serialization id. *)
Lemma decodeHeader_errors (K : Consts) (a : Arch) (buf : list byte)
  (header hd : DubboHeader) (e : error) :
  decodeHeader a buf header = (Some e, hd) ->
  e = ErrIllegalPackage \/ exists msg, e = Errorf msg.
Proof.
  unfold decodeHeader.
  destruct (negb (at_ buf 0 =? MAGIC_HIGH) && negb (at_ buf 1 =? MAGIC_LOW)).
  - intros E. inversion E. left. reflexivity.
  - destruct (SerialID (setSerialID header (Z.land (at_ buf 2) SERIAL_MASK)) =? Zero).
    + intros E. inversion E. right. eexists. reflexivity.
    + match goal with |- context [if ?c <? 0 then _ else _] => destruct (c <? 0) end;
        intros E; inversion E. left. reflexivity.
Qed.

End HeaderFacts.

(** * The magic check *)

Module Magic.
Import HeaderFacts.

Lemma lxor_1_neq (x : Z) : Z.lxor x 1 <> x.
Proof.
  intros E.
  assert (H : Z.lxor x (Z.lxor x 1) = 0) by (rewrite E; apply Z.lxor_nilpotent).
  rewrite <- Z.lxor_assoc, Z.lxor_nilpotent, Z.lxor_0_l in H. discriminate.
Qed.

(** What the check does: it rejects a header when both magic bytes are
    wrong. *)
Lemma decodeHeader_both_wrong (K : Consts) (a : Arch) (buf : list byte)
  (header : DubboHeader) :
  at_ buf 0 <> MAGIC_HIGH -> at_ buf 1 <> MAGIC_LOW ->
  decodeHeader a buf header = (Some ErrIllegalPackage, header).
Proof.
  intros H0 H1. unfold decodeHeader.
  destruct (Z.eqb_spec (at_ buf 0) MAGIC_HIGH); [contradiction|].
  destruct (Z.eqb_spec (at_ buf 1) MAGIC_LOW); [contradiction|].
  reflexivity.
Qed.

(** C1 (the code departs from the claim): a header whose second byte is not
    the magic low byte, its first byte being the magic high byte, is not
    rejected as an illegal package; [ReadHeader] decodes it and returns no
    error, whatever the values of the protocol constants. *)
Theorem ReadHeader_accepts_half_magic (K : Consts) (a : Arch) :
  at_ (half_magic_header K) 1 <> MAGIC_LOW /\
  exists hd,
    ReadHeader a (NewHessianCodec (NewReaderSize [(half_magic_header K, None)] 16))
      emptyHeader
    = Returns (None, NewHessianCodecCustom (Type_ hd) (NewReaderSize [] 16) 0, hd).
Proof.
  split; [apply lxor_1_neq|].
  destruct (@decodeHeader_accepts K a (half_magic_header K) emptyHeader)
    as (hd & E & _ & _ & Hlen).
  - left. reflexivity.
  - discriminate.
  - destruct a; discriminate.
  - exists hd. unfold ReadHeader.
    change (readHeaderBytes (NewHessianCodec (NewReaderSize [(half_magic_header K, None)] 16)))
      with (Returns (A := (error + list byte) * Reader)
              (inr (half_magic_header K), NewReaderSize [] 16)).
    cbn [bind]. rewrite E.
    replace (BodyLen hd) with 0 by (rewrite Hlen; destruct a; reflexivity).
    reflexivity.
Qed.

End Magic.

(** * Acquiring the header bytes *)

Module HeaderBytes.
Import BufioFacts HeaderFacts BitFacts.

(** C3 (the code departs from the claim): in buffered mode, with five bytes
    available and the source at its end, [ReadHeader] does not return the
    "header not enough" error: its guard compares the capacity of the
    buffer, which is sixteen at least, and the failure of [Peek] comes back
    instead, the end of file wrapped by [WithStack]. *)
Theorem ReadHeader_short_buffer_is_EOF (K : Consts) (a : Arch) (header : DubboHeader) :
  Buffered (NewReaderSize short_source 5) < HEADER_LENGTH /\
  ReadHeader a (NewHessianCodec (NewReaderSize short_source 5)) header
  = Returns (Some (WithStack io_EOF),
             NewHessianCodec {| buf_data := [1; 2; 3; 4; 5]; buf_size := 16;
                                rd_err := None; rd := [] |},
             header).
Proof. split; reflexivity. Qed.

(** The guard of the buffered branch never fires on a reader made by
    [NewReaderSize], so [ReadHeader] never returns "header not enough". *)
Lemma Size_NewReaderSize (src : Source) (size : nat) :
  HEADER_LENGTH <= Size (NewReaderSize src size).
Proof. unfold Size, NewReaderSize, HEADER_LENGTH, minReadBufferSize. simpl. lia. Qed.

Lemma ReadHeader_never_header_not_enough (K : Consts) (a : Arch)
  (h h' : HessianCodec) (header hd : DubboHeader) (e : error) :
  HEADER_LENGTH <= Size (reader h) ->
  ReadHeader a h header = Returns (Some e, h', hd) ->
  e <> ErrHeaderNotEnough.
Proof.
  intros Hsz. unfold ReadHeader.
  destruct (readHeaderBytes h) as [[got r]| |] eqn:Hb; try discriminate.
  cbn [bind].
  assert (Hgot : forall x, got = inl x -> x <> ErrHeaderNotEnough).
  { revert Hb. unfold readHeaderBytes.
    destruct (stream h).
    - destruct (Read (reader h) _) as [[[d1 e1] r1]| |]; try discriminate.
      cbn [bind]. destruct e1 as [e1|].
      + intros E x ->. inversion E. discriminate.
      + destruct (Z.of_nat (length d1) <? HEADER_LENGTH).
        * destruct (Read r1 _) as [[[d2 e2] r2]| |]; try discriminate.
          cbn [bind]. destruct e2 as [e2|]; intros E x ->; inversion E. discriminate.
        * intros E x ->. inversion E.
    - destruct (Z.ltb_spec (Size (reader h)) HEADER_LENGTH); [lia|].
      destruct (Peek (reader h) HEADER_LENGTH) as [[[buf e1] r1]| |]; try discriminate.
      cbn [bind]. destruct e1 as [e1|].
      + intros E x ->. inversion E. discriminate.
      + destruct (Discard r1 HEADER_LENGTH) as [[[k e2] r2]| |]; try discriminate.
        cbn [bind]. destruct e2 as [e2|]; intros E x ->; inversion E. discriminate. }
  destruct got as [x|buf].
  - intros E. inversion E; subst. apply Hgot. reflexivity.
  - destruct (decodeHeader a buf header) as [[e1|] hd1] eqn:Hd.
    + intros E. inversion E; subst.
      destruct (decodeHeader_errors _ _ _ _ Hd) as [->|[msg ->]]; discriminate.
    + match goal with |- context [if ?c then _ else _] => destruct c end;
        intros E; inversion E. discriminate.
Qed.

(** C4 (the code departs from the claim): in streaming mode, when the first
    read gives five bytes and the second gives five more, [ReadHeader]
    decodes a buffer of which only ten bytes were filled and returns no
    error.  The header sent announces a body of seven bytes; the header
    decoded has body length 0, and the last six bytes of the header are
    still in the source. *)
Theorem ReadHeader_stream_decodes_unfilled_header (K : Consts) (a : Arch) :
  exists hd,
    ReadHeader a
      (NewStreamHessianCodecCustom 0 (NewReaderSize (trickling_source K) 4096) 0)
      emptyHeader
    = Returns (None,
               NewStreamHessianCodecCustom (Type_ hd)
                 {| buf_data := []; buf_size := 4096; rd_err := None;
                    rd := [([0; 0; 0; 0; 0; 7], None)] |} 0,
               hd)
    /\ BodyLen hd = 0.
Proof.
  set (buf := [MAGIC_HIGH; MAGIC_LOW; 1; 0; 0; 0; 0; 0; 0; 0; 0; 0; 0; 0; 0; 0]).
  destruct (@decodeHeader_accepts K a buf emptyHeader) as (hd & E & _ & _ & Hlen).
  - left. reflexivity.
  - discriminate.
  - destruct a; discriminate.
  - assert (Hz : BodyLen hd = 0) by (rewrite Hlen; destruct a; reflexivity).
    exists hd. split; [|exact Hz].
    unfold ReadHeader.
    change (readHeaderBytes
              (NewStreamHessianCodecCustom 0 (NewReaderSize (trickling_source K) 4096) 0))
      with (Returns (A := (error + list byte) * Reader)
              (inr buf, {| buf_data := []; buf_size := 4096; rd_err := None;
                           rd := [([0; 0; 0; 0; 0; 7], None)] |})).
    cbn [bind]. rewrite E. rewrite Hz. reflexivity.
Qed.

End HeaderBytes.

(** * The body length *)

Module BodyLength.
Import BufioFacts HeaderFacts BitFacts.

(** C5 (the code departs from the claim): where Go's [int] has 64 bits, a
    header whose body-length field is negative as a signed 32-bit value is
    not rejected; [ReadHeader] returns no error in streaming mode and the
    decoded body length is 2147483648. *)
Theorem ReadHeader_Arch64_accepts_negative_length (K : Consts) :
  to_signed 32 (BigEndian_Uint32 (skipn 12 (negative_length_header K))) < 0 /\
  exists hd,
    ReadHeader Arch64
      (NewStreamHessianCodecCustom 0
         (NewReaderSize [(negative_length_header K, None)] 16) 0)
      emptyHeader
    = Returns (None,
               NewStreamHessianCodecCustom (Type_ hd) (NewReaderSize [] 16) 2147483648,
               hd)
    /\ BodyLen hd = 2147483648.
Proof.
  split; [reflexivity|].
  destruct (@decodeHeader_accepts K Arch64 (negative_length_header K) emptyHeader)
    as (hd & E & _ & _ & Hlen).
  - left. reflexivity.
  - discriminate.
  - discriminate.
  - assert (Hz : BodyLen hd = 2147483648) by (rewrite Hlen; reflexivity).
    exists hd. split; [|exact Hz].
    unfold ReadHeader.
    change (readHeaderBytes
              (NewStreamHessianCodecCustom 0
                 (NewReaderSize [(negative_length_header K, None)] 16) 0))
      with (Returns (A := (error + list byte) * Reader)
              (inr (negative_length_header K), NewReaderSize [] 16)).
    cbn [bind]. rewrite E. rewrite Hz. reflexivity.
Qed.

(** Where [int] has 32 bits the check does what the claim says. *)
Lemma decodeHeader_Arch32_negative_length (K : Consts) (buf : list byte)
  (header : DubboHeader) :
  Z.land (at_ buf 2) SERIAL_MASK <> 0 ->
  to_signed 32 (BigEndian_Uint32 (skipn 12 buf)) < 0 ->
  fst (decodeHeader Arch32 buf header) = Some ErrIllegalPackage.
Proof.
  intros Hs Hneg. unfold decodeHeader.
  destruct (negb (at_ buf 0 =? MAGIC_HIGH) && negb (at_ buf 1 =? MAGIC_LOW));
    [reflexivity|].
  cbn [SerialID setSerialID].
  destruct (Z.eqb_spec (Z.land (at_ buf 2) SERIAL_MASK) Zero); [contradiction|].
  match goal with |- context [if ?c <? 0 then _ else _] =>
    replace (c <? 0) with true; [reflexivity|] end.
  symmetry. apply Z.ltb_lt.
  destruct (Z.land (at_ buf 2) FLAG_EVENT =? Zero),
    (Z.land (at_ buf 2) FLAG_REQUEST =? Zero),
    (Z.land (at_ buf 2) FLAG_TWOWAY =? Zero); cbn [negb];
    try destruct (ResponseStatus _ =? Response_OK); exact Hneg.
Qed.

(** Where [int] has 64 bits the converted length of sixteen bytes is never
    negative: the check after the conversion is dead. *)
Lemma int_of_uint32_Arch64_nonneg (buf : list byte) :
  length buf = 16%nat -> Forall (fun b => 0 <= b < 256) buf ->
  0 <= int_of_uint32 Arch64 (BigEndian_Uint32 (skipn 12 buf)) < 2 ^ 32.
Proof.
  intros Hlen Hb.
  do 12 (destruct buf as [|? buf]; [discriminate|]).
  destruct buf as [|c0 buf]; [discriminate|].
  destruct buf as [|c1 buf]; [discriminate|].
  destruct buf as [|c2 buf]; [discriminate|].
  destruct buf as [|c3 buf]; [discriminate|].
  destruct buf; [|discriminate].
  repeat match goal with
         | H : Forall _ (_ :: _) |- _ => inversion H; subst; clear H
         end.
  cbn [skipn].
  rewrite Uint32_sum by assumption.
  assert (R : 0 <= horner [c0; c1; c2; c3] < 2 ^ 32).
  { unfold horner. cbn [fold_left]. lia. }
  unfold int_of_uint32. cbn [intBits].
  rewrite to_signed_nonneg; change (64 - 1) with 63; [exact R | lia | ].
  destruct R as [R0 R1]. split; [exact R0|].
  eapply Z.lt_trans; [exact R1|reflexivity].
Qed.

End BodyLength.

(** * The round trip of a header *)

Module RoundTrip.
Import HeaderFacts.

(** C2 (amended): a header laid out as in section 4.1 from fields that fit,
    read into an empty header, gives back the serialization id, the
    package type, the request id and the body length, and the status when
    the frame is a response; a request leaves the status of the header as
    it was.  [ReadHeader] returns no error in streaming mode, and in
    buffered mode when the bytes buffered behind the header are at least
    the body length; in buffered mode with fewer bytes it returns "body not
    enough", the header and the session filled all the same. *)
Theorem ReadHeader_roundtrip (K : Consts) (a : Arch) (h : HessianCodec)
  (f : HeaderFields) (r : Reader) :
  consts_ok K = true ->
  fields_ok a f = true ->
  readHeaderBytes h = Returns (inr (spec_encodeHeader f), r) ->
  ReadHeader a h emptyHeader =
  Returns (if negb (stream h) && (Buffered r <? f_len f)
           then Some ErrBodyNotEnough else None,
           {| pkgType := spec_packageType f; reader := r; bodyLen := f_len f;
              stream := stream h |},
           {| SerialID := f_serial f; Type_ := spec_packageType f; ID := f_id f;
              BodyLen := f_len f;
              ResponseStatus := if f_request f then 0 else f_status f |}).
Proof.
  intros HK Hf Hb. unfold ReadHeader. rewrite Hb. cbn [bind].
  rewrite (decodeHeader_encoded K a f HK Hf).
  cbn [with_reader reader bodyLen stream pkgType Type_ BodyLen].
  rewrite andb_comm.
  destruct (negb (stream h) && (Buffered r <? f_len f)); reflexivity.
Qed.

(** The round trip on the response frame of [sample_fields], read in
    buffered mode with its three body bytes behind it. *)
Lemma ReadHeader_roundtrip_witness :
  ReadHeader (K := dubbo) Arch64 whole_frame_codec emptyHeader =
  Returns (None,
           {| pkgType := 0x24;
              reader := {| buf_data := [1; 2; 3]; buf_size := 4096;
                           rd_err := None; rd := [] |};
              bodyLen := 3; stream := false |},
           {| SerialID := 2; Type_ := 0x24; ID := -2; BodyLen := 3;
              ResponseStatus := 50 |}).
Proof.
  exact (@ReadHeader_roundtrip dubbo Arch64 whole_frame_codec sample_fields
           {| buf_data := [1; 2; 3]; buf_size := 4096; rd_err := None; rd := [] |}
           eq_refl eq_refl eq_refl).
Defined.

(** C2 as stated fails on two valid headers.  In buffered mode with nothing
    buffered behind the header of [sample_fields], [ReadHeader] does not
    succeed: it returns "body not enough".  And the header of
    [request_fields], a request whose status byte is 7, decodes in
    streaming mode to a header whose status is 0. *)
Lemma ReadHeader_valid_header_not_reproduced :
  consts_ok dubbo = true /\
  (fields_ok Arch64 sample_fields = true /\
   ReadHeader (K := dubbo) Arch64 header_only_codec emptyHeader =
   Returns (Some ErrBodyNotEnough,
            {| pkgType := 0x24;
               reader := {| buf_data := []; buf_size := 4096;
                            rd_err := None; rd := [] |};
               bodyLen := 3; stream := false |},
            {| SerialID := 2; Type_ := 0x24; ID := -2; BodyLen := 3;
               ResponseStatus := 50 |})) /\
  (fields_ok Arch64 request_fields = true /\
   at_ (spec_encodeHeader (K := dubbo) request_fields) 3 = 7 /\
   ReadHeader (K := dubbo) Arch64 request_stream_codec emptyHeader =
   Returns (None,
            {| pkgType := 0x12;
               reader := {| buf_data := []; buf_size := 4096;
                            rd_err := None; rd := [] |};
               bodyLen := 0; stream := true |},
            {| SerialID := 2; Type_ := 0x12; ID := 9; BodyLen := 0;
               ResponseStatus := 0 |})).
Proof. repeat split; vm_compute; reflexivity. Qed.

End RoundTrip.

(** * A body that has not arrived *)

Module BodyNotEnough.

Lemma with_reader_same (h : HessianCodec) : with_reader h (reader h) = h.
Proof. destruct h; reflexivity. Qed.

(** In buffered mode [ReadBody] reports a body that is not there yet and
    leaves session and result object alone. *)
Lemma ReadBody_body_not_enough (C : Collaborators) (h : HessianCodec) (rspObj : any) :
  stream h = false -> Buffered (reader h) < bodyLen h ->
  ReadBody h rspObj = Returns (Some ErrBodyNotEnough, h, rspObj).
Proof.
  intros Hs Hb. unfold ReadBody, readBodyBytes. rewrite Hs.
  destruct (Z.ltb_spec (Buffered (reader h)) (bodyLen h)); [|lia].
  cbn [bind]. rewrite with_reader_same. reflexivity.
Qed.

(** C6: in buffered mode, when the header bytes were obtained and decoded
    without error but fewer bytes are buffered than the body length says,
    [ReadHeader] returns "body not enough" with the header filled and the
    package type and body length recorded in the session; [ReadBody] on
    that session returns "body not enough" too, and so does every later
    [ReadBody] on the session while the buffered count stays below the body
    length. *)
Theorem ReadHeader_then_ReadBody_body_not_enough
  (K : Consts) (C : Collaborators) (a : Arch) (h : HessianCodec)
  (header hd : DubboHeader) (buf : list byte) (r : Reader) (rspObj : any) :
  stream h = false ->
  readHeaderBytes h = Returns (inr buf, r) ->
  decodeHeader a buf header = (None, hd) ->
  Buffered r < BodyLen hd ->
  let h' := {| pkgType := Type_ hd; reader := r; bodyLen := BodyLen hd;
               stream := false |} in
  ReadHeader a h header = Returns (Some ErrBodyNotEnough, h', hd) /\
  ReadBody h' rspObj = Returns (Some ErrBodyNotEnough, h', rspObj) /\
  forall r'', Buffered r'' < BodyLen hd ->
    ReadBody (with_reader h' r'') rspObj
    = Returns (Some ErrBodyNotEnough, with_reader h' r'', rspObj).
Proof.
  intros Hs Hb Hd Hlt h'. repeat split.
  - unfold ReadHeader. rewrite Hb. cbn [bind]. rewrite Hd.
    cbn [with_reader reader bodyLen stream pkgType]. rewrite Hs.
    destruct (Z.ltb_spec (Buffered r) (BodyLen hd)); [|lia].
    reflexivity.
  - apply ReadBody_body_not_enough; [reflexivity|exact Hlt].
  - intros r'' Hr. apply ReadBody_body_not_enough; [reflexivity|exact Hr].
Qed.

(** The same on the header of [sample_fields] with no body behind it. *)
Lemma ReadHeader_then_ReadBody_body_not_enough_witness :
  let h' := {| pkgType := 0x24;
               reader := {| buf_data := []; buf_size := 4096;
                            rd_err := None; rd := [] |};
               bodyLen := 3; stream := false |} in
  let hd := {| SerialID := 2; Type_ := 0x24; ID := -2; BodyLen := 3;
               ResponseStatus := 50 |} in
  ReadHeader (K := dubbo) Arch64 header_only_codec emptyHeader
  = Returns (Some ErrBodyNotEnough, h', hd) /\
  ReadBody (C := sample_collaborators) h' nil_any
  = Returns (Some ErrBodyNotEnough, h', nil_any) /\
  forall r'', Buffered r'' < 3 ->
    ReadBody (C := sample_collaborators) (with_reader h' r'') nil_any
    = Returns (Some ErrBodyNotEnough, with_reader h' r'', nil_any).
Proof.
  exact (@ReadHeader_then_ReadBody_body_not_enough dubbo sample_collaborators Arch64
           header_only_codec emptyHeader
           {| SerialID := 2; Type_ := 0x24; ID := -2; BodyLen := 3;
              ResponseStatus := 50 |}
           (spec_encodeHeader (K := dubbo) sample_fields)
           {| buf_data := []; buf_size := 4096; rd_err := None; rd := [] |}
           nil_any eq_refl eq_refl eq_refl eq_refl).
Defined.

End BodyNotEnough.

(** * Dispatch on the package type *)

Module Dispatch.
Import ReaderFacts.

Section WithCollaborators.

Context {C : Collaborators}.

(** C7: when the masked package type of the session is response with the
    exception bit, with or without the heartbeat bit, [ReadBody] decodes the
    body it read as one value, the text of the exception.  With a
    [*DubboResponse] in the result slot it stores the exception there and
    returns no error; with anything else in the slot it returns an error
    whose message carries the text. *)
Theorem ReadBody_response_exception (h : HessianCodec) (rspObj : any)
  (buf : list byte) (r : Reader) (s : string) :
  isResponseException (pkgType h) = true ->
  readBodyBytes h = Returns (inr buf, r) ->
  Decode (NewDecoder buf) = (any_string s, None) ->
  (forall rsp : DubboResponse, rspObj = ptr rsp ->
     ReadBody h rspObj =
     Returns (None, with_reader h r,
              ptr {| RspObj := RspObj rsp;
                     Exception := Some (Errorf ("java exception:" ++ s));
                     Attachments := Attachments rsp |})) /\
  ((forall p, rspObj <> any_response p) ->
     ReadBody h rspObj =
     Returns (Some (Errorf ("java exception:" ++ s)), with_reader h r, rspObj)).
Proof.
  intros Ht Hb Hd. unfold isResponseException in Ht.
  split.
  - intros rsp ->. unfold ReadBody. rewrite Hb. cbn [bind with_reader pkgType].
    rewrite Ht, Hd. reflexivity.
  - intros Hn. unfold ReadBody. rewrite Hb. cbn [bind with_reader pkgType].
    rewrite Ht, Hd.
    destruct rspObj; try reflexivity.
    exfalso. eapply Hn. reflexivity.
Qed.

(** C8: [Write] packs a heartbeat header as a request when its status is
    zero and as a response otherwise, a request or two-way request header
    as a request, a response header as a response; for any other type it
    returns an error that names the type.  The session is the same after
    the call. *)
Theorem Write_dispatch (h : HessianCodec) (service : Service)
  (header : DubboHeader) (body : any) :
  snd (Write h service header body) = h /\
  (Type_ header = PackageHeartbeat -> ResponseStatus header = Zero ->
     fst (Write h service header body) = packRequest service header body) /\
  (Type_ header = PackageHeartbeat -> ResponseStatus header <> Zero ->
     fst (Write h service header body) = packResponse header body) /\
  (Type_ header = PackageRequest \/ Type_ header = PackageRequest_TwoWay ->
     fst (Write h service header body) = packRequest service header body) /\
  (Type_ header = PackageResponse ->
     fst (Write h service header body) = packResponse header body) /\
  (Type_ header <> PackageHeartbeat -> Type_ header <> PackageRequest ->
   Type_ header <> PackageRequest_TwoWay -> Type_ header <> PackageResponse ->
     fst (Write h service header body)
     = ([], Some (Errorf ("Unrecognized message type: " ++ fmt_int (Type_ header))))).
Proof.
  unfold Write. repeat split.
  - destruct (Type_ header =? PackageHeartbeat).
    + destruct (ResponseStatus header =? Zero); reflexivity.
    + destruct ((Type_ header =? PackageRequest) || (Type_ header =? PackageRequest_TwoWay));
        [reflexivity|].
      destruct (Type_ header =? PackageResponse); reflexivity.
  - intros -> ->. reflexivity.
  - intros -> Hn. simpl.
    destruct (Z.eqb_spec (ResponseStatus header) Zero); [contradiction|reflexivity].
  - intros [-> | ->]; reflexivity.
  - intros ->. reflexivity.
  - intros H1 H2 H3 H4.
    destruct (Z.eqb_spec (Type_ header) PackageHeartbeat); [contradiction|].
    destruct (Z.eqb_spec (Type_ header) PackageRequest); [contradiction|].
    destruct (Z.eqb_spec (Type_ header) PackageRequest_TwoWay); [contradiction|].
    destruct (Z.eqb_spec (Type_ header) PackageResponse); [contradiction|].
    reflexivity.
Qed.

(** C9: [ReadAttachments], once it has read the body, has read exactly
    [bodyLen] bytes.  For a request frame it returns the seventh field the
    request unpacker filled, a map; for a response frame the attachments of
    the response the unpacker filled; for any other masked type the nil map
    and no error. *)
Theorem ReadAttachments_dispatch (h : HessianCodec) (buf : list byte) (r : Reader) :
  readBodyBytes h = Returns (inr buf, r) ->
  Z.of_nat (length buf) = bodyLen h /\
  (Z.land (pkgType h) PackageType_BitSize = PackageRequest ->
   forall (l : list any) (m : GoMap),
     unpackRequestBody (NewDecoderWithSkip buf) (any_slice (repeat nil_any 7))
     = (any_slice l, None) ->
     nth_error l 6 = Some (any_map m) ->
     ReadAttachments h = Returns (m, None, with_reader h r)) /\
  (Z.land (pkgType h) PackageType_BitSize = PackageResponse ->
   forall rsp : DubboResponse,
     unpackResponseBody (NewDecoderWithSkip buf)
       (ptr {| RspObj := nil_any; Exception := None; Attachments := None |})
     = (ptr rsp, None) ->
     ReadAttachments h = Returns (Attachments rsp, None, with_reader h r)) /\
  (Z.land (pkgType h) PackageType_BitSize <> PackageRequest ->
   Z.land (pkgType h) PackageType_BitSize <> PackageResponse ->
   ReadAttachments h = Returns (None, None, with_reader h r)).
Proof.
  intros Hb. split; [exact (readBodyBytes_length _ Hb)|].
  unfold ReadAttachments. rewrite Hb. cbn [bind with_reader pkgType].
  repeat split.
  - intros -> l m Hu Hn. cbn [Z.eqb PackageRequest Pos.eqb].
    rewrite Hu. cbn [index_any bind]. rewrite Hn. reflexivity.
  - intros -> rsp Hu. cbn [Z.eqb PackageRequest PackageResponse Pos.eqb].
    rewrite Hu. reflexivity.
  - intros H1 H2.
    destruct (Z.eqb_spec (Z.land (pkgType h) PackageType_BitSize) PackageRequest);
      [contradiction|].
    destruct (Z.eqb_spec (Z.land (pkgType h) PackageType_BitSize) PackageResponse);
      [contradiction|].
    reflexivity.
Qed.

(** C10: the two unchecked assertions.  In the exception branch of
    [ReadBody] a decoded value that is not a string makes the call panic,
    so a call that returns had a string; in the request branch of
    [ReadAttachments] a seventh field that is not a [map[string]any] makes
    the call panic, so a call that returns had such a map. *)
Theorem unchecked_assertions_panic (h : HessianCodec) (buf : list byte) (r : Reader) :
  readBodyBytes h = Returns (inr buf, r) ->
  (isResponseException (pkgType h) = true ->
   forall (rspObj v : any),
     Decode (NewDecoder buf) = (v, None) ->
     ((forall s, v <> any_string s) -> exists msg, ReadBody h rspObj = Panics msg) /\
     ((exists res, ReadBody h rspObj = Returns res) -> exists s, v = any_string s)) /\
  (Z.land (pkgType h) PackageType_BitSize = PackageRequest ->
   forall (l : list any) (v : any),
     unpackRequestBody (NewDecoderWithSkip buf) (any_slice (repeat nil_any 7))
     = (any_slice l, None) ->
     nth_error l 6 = Some v ->
     ((forall m, v <> any_map m) -> exists msg, ReadAttachments h = Panics msg) /\
     ((exists res, ReadAttachments h = Returns res) -> exists m, v = any_map m)).
Proof.
  intros Hb. split.
  - intros Ht rspObj v Hd. unfold isResponseException in Ht.
    assert (E : ReadBody h rspObj =
                match rspObj with
                | any_response rsp =>
                    s <- assert_string v ;;
                    rspObj' <- store_Exception rsp (Errorf ("java exception:" ++ s)) ;;
                    Returns (None, with_reader h r, rspObj')
                | _ =>
                    s <- assert_string v ;;
                    Returns (Some (Errorf ("java exception:" ++ s)), with_reader h r, rspObj)
                end).
    { unfold ReadBody. rewrite Hb. cbn [bind with_reader pkgType].
      rewrite Ht, Hd. reflexivity. }
    rewrite E. split.
    + intros Hn. destruct v; try (destruct rspObj; eexists; reflexivity).
      exfalso. eapply Hn. reflexivity.
    + intros [res Hres]. destruct v; try (destruct rspObj; discriminate).
      eexists. reflexivity.
  - intros Ht l v Hu Hn.
    assert (E : ReadAttachments h =
                (m <- assert_map v ;; Returns (m, None, with_reader h r))).
    { unfold ReadAttachments. rewrite Hb. cbn [bind with_reader pkgType].
      rewrite Ht. cbn [Z.eqb PackageRequest Pos.eqb].
      rewrite Hu. cbn [index_any bind]. rewrite Hn. reflexivity. }
    rewrite E. split.
    + intros Hm. destruct v; try (eexists; reflexivity).
      exfalso. eapply Hm. reflexivity.
    + intros [res Hres]. destruct v; try discriminate.
      eexists. reflexivity.
Qed.

End WithCollaborators.

(** An exception body read into a response, and into a slot that is not
    one. *)
Lemma ReadBody_response_exception_witness :
  ReadBody (C := sample_collaborators) (empty_body_codec 0x24) (ptr sample_response)
  = Returns (None, empty_body_codec 0x24,
             ptr {| RspObj := any_int 0;
                    Exception := Some (Errorf "java exception:boom");
                    Attachments := None |})
  /\
  ReadBody (C := sample_collaborators) (empty_body_codec 0x2c) (any_slice [])
  = Returns (Some (Errorf "java exception:boom"), empty_body_codec 0x2c, any_slice []).
Proof.
  split.
  - exact (proj1 (@ReadBody_response_exception sample_collaborators
                    (empty_body_codec 0x24) (ptr sample_response) []
                    (NewReaderSize [] 16) "boom" eq_refl eq_refl eq_refl)
             sample_response eq_refl).
  - refine (proj2 (@ReadBody_response_exception sample_collaborators
                     (empty_body_codec 0x2c) (any_slice []) []
                     (NewReaderSize [] 16) "boom" eq_refl eq_refl eq_refl) _).
    intros p E. discriminate E.
Defined.

(** A heartbeat with status zero goes to the request packer; type 0 is
    not recognized. *)
Lemma Write_dispatch_witness :
  fst (Write (C := sample_collaborators) (empty_body_codec 0) sample_service
         heartbeat_header nil_any)
  = ([1], None)
  /\
  fst (Write (C := sample_collaborators) (empty_body_codec 0) sample_service
         emptyHeader nil_any)
  = ([], Some (Errorf "Unrecognized message type: 0")).
Proof.
  split.
  - exact (proj1 (proj2 (@Write_dispatch sample_collaborators (empty_body_codec 0)
                           sample_service heartbeat_header nil_any))
             eq_refl eq_refl).
  - refine (proj2 (proj2 (proj2 (proj2 (proj2
              (@Write_dispatch sample_collaborators (empty_body_codec 0)
                 sample_service emptyHeader nil_any))))) _ _ _ _);
      intros E; discriminate E.
Defined.

(** The attachments of a request frame. *)
Lemma ReadAttachments_dispatch_witness :
  ReadAttachments (C := sample_collaborators) (empty_body_codec PackageRequest)
  = Returns (Some [("k", any_string "v")], None, empty_body_codec PackageRequest).
Proof.
  exact (proj1 (proj2 (@ReadAttachments_dispatch sample_collaborators
                         (empty_body_codec PackageRequest) [] (NewReaderSize [] 16)
                         eq_refl))
           eq_refl
           (repeat nil_any 6 ++ [any_map (Some [("k", any_string "v")])])
           (Some [("k", any_string "v")]) eq_refl eq_refl).
Defined.

(** A body that decodes to an integer: both calls panic. *)
Lemma unchecked_assertions_panic_witness :
  (exists msg,
     ReadBody (C := sample_collaborators) (one_byte_body_codec 0x24)
       (ptr sample_response) = Panics msg) /\
  (exists msg,
     ReadAttachments (C := sample_collaborators) (one_byte_body_codec PackageRequest)
     = Panics msg).
Proof.
  split.
  - refine (proj1 (proj1 (@unchecked_assertions_panic sample_collaborators
                            (one_byte_body_codec 0x24) [7] (NewReaderSize [] 16)
                            eq_refl)
                     eq_refl (ptr sample_response) (any_int 7) eq_refl) _).
    intros s E. discriminate E.
  - refine (proj1 (proj2 (@unchecked_assertions_panic sample_collaborators
                            (one_byte_body_codec PackageRequest) [7]
                            (NewReaderSize [] 16) eq_refl)
                     eq_refl (repeat nil_any 6 ++ [any_int 7]) (any_int 7)
                     eq_refl eq_refl) _).
    intros m E. discriminate E.
Defined.

(** The type named in the error of [Write] is printed in decimal. *)
Example fmt_int_samples :
  fmt_int 0 = "0" /\ fmt_int 47 = "47" /\ fmt_int (-120) = "-120".
Proof. repeat split. Qed.

End Dispatch.

(** * Streams: what the readers deliver *)

Module StreamFacts.
Import BufioFacts ReaderFacts.

Lemma healthy_inv (r : Reader) :
  healthy r = true ->
  rd_err r = None /\ forallb (fun x => no_error (snd x)) (rd r) = true.
Proof.
  unfold healthy. intros H. apply andb_true_iff in H. destruct H as [He Hs].
  split; [|exact Hs]. destruct (rd_err r); [discriminate|reflexivity].
Qed.

Lemma healthy_intro (r : Reader) :
  rd_err r = None -> forallb (fun x => no_error (snd x)) (rd r) = true ->
  healthy r = true.
Proof. unfold healthy. intros -> ->. reflexivity. Qed.

(** A [Read] on a healthy reader that is not at its end returns no error;
    what it copies and what it leaves pending are what was pending. *)
Lemma Read_healthy (r r' : Reader) (k : nat) (d : list byte) (e : option error) :
  healthy r = true -> (0 < k)%nat ->
  buf_data r <> [] \/ rd r <> [] ->
  Read r k = Returns (d, e, r') ->
  e = None /\ d ++ pending r' = pending r /\ healthy r' = true.
Proof.
  intros Hh Hk Hne. destruct (healthy_inv _ Hh) as [Herr Hs].
  unfold Read, readErr, pending.
  destruct (Nat.eqb_spec k 0); [lia|].
  destruct (buf_data r) as [|x l] eqn:Hd.
  - rewrite Herr.
    destruct Hne as [Hne|Hne]; [contradiction|].
    destruct (rd r) as [|[bs e0] s0] eqn:Hrd; [contradiction|].
    cbn [forallb snd] in Hs. apply andb_true_iff in Hs. destruct Hs as [He0 Hs0].
    destruct e0; [discriminate|].
    unfold src_Read.
    destruct (buf_size r <=? k)%nat.
    + destruct (length bs <=? k)%nat; intros E; inversion E; subst;
        cbn [buf_data rd map fst concat app];
        (split; [reflexivity|]); (split; [|apply healthy_intro; [reflexivity|]]).
      * reflexivity.
      * exact Hs0.
      * rewrite app_assoc, firstn_skipn. reflexivity.
      * cbn [rd forallb snd no_error andb]. exact Hs0.
    + destruct (length bs <=? buf_size r)%nat.
      * destruct bs as [|b0 bs]; intros E; inversion E; subst;
          cbn [buf_data rd map fst concat app];
          (split; [reflexivity|]); (split; [|apply healthy_intro; [reflexivity|]]).
        -- reflexivity.
        -- exact Hs0.
        -- rewrite app_assoc, firstn_skipn. reflexivity.
        -- exact Hs0.
      * destruct (firstn (buf_size r) bs) as [|b0 l0] eqn:Hf;
          intros E; inversion E; subst;
          cbn [buf_data rd map fst concat app];
          (split; [reflexivity|]); (split; [|apply healthy_intro; [reflexivity|]]).
        -- rewrite <- (firstn_skipn (buf_size r) bs) at 2. rewrite Hf. reflexivity.
        -- cbn [rd forallb snd no_error andb]. exact Hs0.
        -- rewrite app_assoc, firstn_skipn.
           rewrite <- (firstn_skipn (buf_size r) bs) at 2. rewrite Hf.
           rewrite <- app_assoc. reflexivity.
        -- cbn [rd forallb snd no_error andb]. exact Hs0.
  - intros E. inversion E; subst. cbn [buf_data rd].
    split; [reflexivity|]. split.
    + rewrite app_assoc, firstn_skipn. reflexivity.
    + apply healthy_intro; [exact Herr|exact Hs].
Qed.

Lemma skipn_repeat_zero (n m : nat) :
  (n <= m)%nat -> skipn n (repeat 0 m) = repeat 0 (m - n).
Proof.
  intros H. replace m with (n + (m - n))%nat at 1 by lia.
  rewrite repeat_app, skipn_app, repeat_length, Nat.sub_diag.
  rewrite skipn_all2 by (rewrite repeat_length; lia). reflexivity.
Qed.

(** The buffer of the streaming loop: what was read, then zeros. *)
Lemma copy_at_tail (got d : list byte) (m : nat) :
  (length d <= m)%nat ->
  copy_at (got ++ repeat 0 m) (length got) d
  = (got ++ d) ++ repeat 0 (m - length d).
Proof.
  intros H. unfold copy_at.
  rewrite firstn_app, Nat.sub_diag, firstn_all. cbn [firstn].
  rewrite skipn_app, skipn_all2 by lia.
  replace (length got + length d - length got)%nat with (length d) by lia.
  rewrite skipn_repeat_zero by exact H.
  rewrite app_nil_r. cbn [app]. rewrite app_assoc. reflexivity.
Qed.

Lemma pending_nonempty (r : Reader) :
  (0 < length (pending r))%nat -> buf_data r <> [] \/ rd r <> [].
Proof.
  unfold pending. intros H.
  destruct (buf_data r); [|left; discriminate].
  destruct (rd r); [cbn in H; lia|right; discriminate].
Qed.

(** The streaming loop on a healthy reader with [m] bytes pending at least:
    it fills the buffer with the next [m] bytes, in order, and leaves the
    bytes behind them pending. *)
Lemma readBody_loop_healthy (fuel : nat) : forall (got : list byte) (m : nat) (r : Reader),
  healthy r = true ->
  (m <= length (pending r))%nat ->
  (m + length (rd r) < fuel)%nat ->
  exists r',
    readBody_loop fuel (Z.of_nat (length got + m)) (got ++ repeat 0 m)
      (Z.of_nat (length got)) r
    = Returns (inr (got ++ firstn m (pending r)), r') /\
    pending r' = skipn m (pending r) /\ healthy r' = true.
Proof.
  induction fuel as [|fuel IH]; intros got m r Hh Hm Hfuel; [lia|].
  rewrite readBody_loop_eq.
  destruct (Z.ltb_spec (Z.of_nat (length got)) (Z.of_nat (length got + m))) as [Hlt|Hge].
  - assert (Hk : (length (got ++ repeat 0%Z m) - Z.to_nat (Z.of_nat (length got)))%nat = m).
    { rewrite length_app, repeat_length, Nat2Z.id. lia. }
    rewrite Hk, Nat2Z.id.
    destruct (Read_returns r m) as [[[d e] r1] HR]. rewrite HR. cbn [bind].
    assert (Hpos : (0 < m)%nat) by lia.
    destruct (@Read_healthy r r1 m d e Hh Hpos (pending_nonempty r ltac:(lia)) HR)
      as (-> & Hpend & Hh1).
    pose proof (Read_length _ _ HR) as Hd.
    destruct (Read_progress _ Hpos HR) as [Hrd Hpr].
    rewrite copy_at_tail by exact Hd.
    assert (Hlen1 : (length (pending r1) + length d = length (pending r))%nat).
    { rewrite <- Hpend, length_app. lia. }
    destruct (IH (got ++ d) (m - length d)%nat r1 Hh1) as (r' & E & Hp & Hh').
    { lia. }
    { lia. }
    replace (Z.of_nat (length (got ++ d) + (m - length d)))
      with (Z.of_nat (length got + m)) in E by (rewrite length_app; lia).
    replace (Z.of_nat (length (got ++ d)))
      with (Z.of_nat (length got) + Z.of_nat (length d)) in E
      by (rewrite length_app; lia).
    exists r'. rewrite E. repeat split.
    + assert (Ef : firstn m d = d) by (apply firstn_all2; exact Hd).
      rewrite <- Hpend, firstn_app, Ef, <- app_assoc. reflexivity.
    + assert (Es : skipn m d = []) by (apply skipn_all2; exact Hd).
      rewrite Hp, <- Hpend, skipn_app, Es. reflexivity.
    + exact Hh'.
  - assert (m = 0)%nat by lia. subst m.
    exists r. cbn [repeat firstn skipn]. repeat split. exact Hh.
Qed.

(** The streaming loop on a healthy reader that has fewer than [m] bytes
    to deliver: it reads what there is and returns the end of file. *)
Lemma readBody_loop_short (fuel : nat) : forall (got : list byte) (m : nat) (r : Reader),
  healthy r = true ->
  (length (pending r) < m)%nat ->
  (m + length (rd r) < fuel)%nat ->
  exists r',
    readBody_loop fuel (Z.of_nat (length got + m)) (got ++ repeat 0 m)
      (Z.of_nat (length got)) r
    = Returns (inl (WithStack io_EOF), r') /\ pending r' = [].
Proof.
  induction fuel as [|fuel IH]; intros got m r Hh Hm Hfuel; [lia|].
  rewrite readBody_loop_eq.
  destruct (Z.ltb_spec (Z.of_nat (length got)) (Z.of_nat (length got + m))); [|lia].
  assert (Hk : (length (got ++ repeat 0%Z m) - Z.to_nat (Z.of_nat (length got)))%nat = m).
  { rewrite length_app, repeat_length, Nat2Z.id. lia. }
  rewrite Hk, Nat2Z.id.
  assert (Hpos : (0 < m)%nat) by lia.
  destruct (buf_data r) as [|x l] eqn:Hd; [destruct (rd r) as [|c s0] eqn:Hrd|].
  - destruct (healthy_inv _ Hh) as [Herr _].
    unfold Read. destruct (Nat.eqb_spec m 0); [lia|].
    rewrite Hd, Herr, Hrd. cbn [src_Read].
    destruct (buf_size r <=? m)%nat; cbn [bind];
      eexists; (split; [reflexivity|]); reflexivity.
  - rewrite <- Hrd in Hfuel.
    destruct (Read_returns r m) as [[[d e] r1] HR]. rewrite HR. cbn [bind].
    assert (Hne : buf_data r <> [] \/ rd r <> [])
      by (right; rewrite Hrd; discriminate).
    destruct (@Read_healthy r r1 m d e Hh Hpos Hne HR) as (-> & Hpend & Hh1).
    pose proof (Read_length _ _ HR) as Hlen.
    destruct (Read_progress _ Hpos HR) as [Hr1 Hpr].
    rewrite copy_at_tail by exact Hlen.
    assert (Hlen1 : (length (pending r1) + length d = length (pending r))%nat).
    { rewrite <- Hpend, length_app. lia. }
    destruct (IH (got ++ d) (m - length d)%nat r1 Hh1) as (r' & E & Hp).
    { lia. }
    { lia. }
    replace (Z.of_nat (length (got ++ d) + (m - length d)))
      with (Z.of_nat (length got + m)) in E by (rewrite length_app; lia).
    replace (Z.of_nat (length (got ++ d)))
      with (Z.of_nat (length got) + Z.of_nat (length d)) in E
      by (rewrite length_app; lia).
    exists r'. rewrite E. split; [reflexivity|exact Hp].
  - destruct (Read_returns r m) as [[[d e] r1] HR]. rewrite HR. cbn [bind].
    assert (Hne : buf_data r <> [] \/ rd r <> [])
      by (left; rewrite Hd; discriminate).
    destruct (@Read_healthy r r1 m d e Hh Hpos Hne HR) as (-> & Hpend & Hh1).
    pose proof (Read_length _ _ HR) as Hlen.
    destruct (Read_progress _ Hpos HR) as [Hr1 Hpr].
    rewrite copy_at_tail by exact Hlen.
    assert (Hlen1 : (length (pending r1) + length d = length (pending r))%nat).
    { rewrite <- Hpend, length_app. lia. }
    destruct (IH (got ++ d) (m - length d)%nat r1 Hh1) as (r' & E & Hp).
    { lia. }
    { lia. }
    replace (Z.of_nat (length (got ++ d) + (m - length d)))
      with (Z.of_nat (length got + m)) in E by (rewrite length_app; lia).
    replace (Z.of_nat (length (got ++ d)))
      with (Z.of_nat (length got) + Z.of_nat (length d)) in E
      by (rewrite length_app; lia).
    exists r'. rewrite E. split; [reflexivity|exact Hp].
Qed.

End StreamFacts.

(** * Reading the body bytes *)

Module BodyBytes.
Import BufioFacts ReaderFacts StreamFacts.

(** X1: in streaming mode, on a source without errors that holds the body,
    the body read is the next [bodyLen] bytes in order, however the source
    cuts them into pieces; the bytes behind the body stay pending. *)
Theorem readBodyBytes_stream_assembles (h : HessianCodec) :
  stream h = true ->
  healthy (reader h) = true ->
  0 <= bodyLen h <= Z.of_nat (length (pending (reader h))) ->
  exists r',
    readBodyBytes h
    = Returns (inr (firstn (Z.to_nat (bodyLen h)) (pending (reader h))), r') /\
    pending r' = skipn (Z.to_nat (bodyLen h)) (pending (reader h)) /\
    healthy r' = true.
Proof.
  intros Hs Hh Hlen. unfold readBodyBytes. rewrite Hs.
  destruct (Z.ltb_spec (bodyLen h) 0); [lia|].
  destruct (@readBody_loop_healthy (readBody_fuel (bodyLen h) (reader h)) []
              (Z.to_nat (bodyLen h)) (reader h) Hh) as (r' & E & Hp & Hh').
  - lia.
  - unfold readBody_fuel. lia.
  - cbn [length app Nat.add] in E. rewrite Z2Nat.id in E by lia.
    change (Z.of_nat 0) with 0 in E.
    exists r'. rewrite E. auto.
Qed.

Lemma readBodyBytes_stream_assembles_witness :
  exists r',
    readBodyBytes pieces_codec = Returns (inr [1; 2; 3; 4], r') /\
    pending r' = [5] /\ healthy r' = true.
Proof.
  apply (@readBodyBytes_stream_assembles pieces_codec).
  - reflexivity.
  - reflexivity.
  - simpl. lia.
Defined.

(** X2: in buffered mode the body read never reads the source.  When it
    returns the body, that is the first [bodyLen] bytes of the buffer and
    exactly those are consumed; when it returns an error the buffer is as
    it was. *)
Theorem readBodyBytes_buffered_exact (h : HessianCodec)
  (got : error + list byte) (r : Reader) :
  stream h = false ->
  readBodyBytes h = Returns (got, r) ->
  rd r = rd (reader h) /\
  match got with
  | inr buf =>
      buf = firstn (Z.to_nat (bodyLen h)) (buf_data (reader h)) /\
      buf_data r = skipn (Z.to_nat (bodyLen h)) (buf_data (reader h)) /\
      Z.of_nat (length buf) = bodyLen h
  | inl _ => buf_data r = buf_data (reader h)
  end.
Proof.
  intros Hs. unfold readBodyBytes. rewrite Hs.
  destruct (Z.ltb_spec (Buffered (reader h)) (bodyLen h)) as [Hlt|Hge].
  - intros E. inversion E; subst. split; reflexivity.
  - unfold Peek.
    destruct (Z.ltb_spec (bodyLen h) 0) as [Hneg|Hpos].
    + cbn [bind]. intros E. inversion E; subst. split; reflexivity.
    + rewrite Peek_loop_eq.
      destruct (Z.ltb_spec (Buffered (reader h)) (bodyLen h)); [lia|].
      cbn [andb bind].
      destruct (Z.ltb_spec (Size (reader h)) (bodyLen h)).
      * cbn [bind]. intros E. inversion E; subst. split; reflexivity.
      * destruct (Z.ltb_spec (Buffered (reader h)) (bodyLen h)); [lia|].
        cbn [bind]. rewrite Discard_buffered by lia. cbn [bind].
        intros E. inversion E; subst. cbn [rd buf_data].
        repeat split.
        rewrite length_firstn. unfold Buffered in *. lia.
Qed.

Lemma readBodyBytes_buffered_exact_witness :
  let r := {| buf_data := [5]; buf_size := 16; rd_err := None;
              rd := [([6], None)] |} in
  readBodyBytes (buffered_body_codec PackageRequest) = Returns (inr [1; 2; 3; 4], r) /\
  rd r = [([6], None)] /\ buf_data r = [5].
Proof.
  split; [reflexivity|].
  pose proof (@readBodyBytes_buffered_exact (buffered_body_codec PackageRequest)
                (inr [1; 2; 3; 4])
                {| buf_data := [5]; buf_size := 16; rd_err := None;
                   rd := [([6], None)] |}
                eq_refl eq_refl) as H.
  split; [exact (proj1 H) | exact (proj1 (proj2 (proj2 H)))].
Defined.

(** X18: in streaming mode, on a source without errors that ends before
    the body is complete, the body read returns the end of file wrapped by
    [WithStack], after reading all the source had: no part of a body is
    handed out. *)
Theorem readBodyBytes_stream_short (h : HessianCodec) :
  stream h = true ->
  healthy (reader h) = true ->
  Z.of_nat (length (pending (reader h))) < bodyLen h ->
  exists r',
    readBodyBytes h = Returns (inl (WithStack io_EOF), r') /\ pending r' = [].
Proof.
  intros Hs Hh Hlen. unfold readBodyBytes. rewrite Hs.
  destruct (Z.ltb_spec (bodyLen h) 0); [lia|].
  destruct (@readBody_loop_short (readBody_fuel (bodyLen h) (reader h)) []
              (Z.to_nat (bodyLen h)) (reader h) Hh) as (r' & E & Hp).
  - lia.
  - unfold readBody_fuel. lia.
  - cbn [length app Nat.add] in E. rewrite Z2Nat.id in E by lia.
    change (Z.of_nat 0) with 0 in E.
    exists r'. rewrite E. auto.
Qed.

Lemma readBodyBytes_stream_short_witness :
  exists r',
    readBodyBytes (NewStreamHessianCodecCustom PackageRequest
                     (NewReaderSize [([1; 2], None); ([3], None)] 16) 4)
    = Returns (inl (WithStack io_EOF), r') /\ pending r' = [].
Proof.
  apply (@readBodyBytes_stream_short
           (NewStreamHessianCodecCustom PackageRequest
              (NewReaderSize [([1; 2], None); ([3], None)] 16) 4)).
  - reflexivity.
  - reflexivity.
  - simpl. lia.
Defined.

End BodyBytes.

(** * What [ReadHeader] returns and records *)

Module HeaderOutcome.
Import BufioFacts ReaderFacts HeaderFacts.

(** The error of the header bytes: the guard of the buffered branch, or a
    failure of the reader wrapped by [WithStack]. *)
Lemma readHeaderBytes_errors (h : HessianCodec) (x : error) (r : Reader) :
  readHeaderBytes h = Returns (inl x, r) ->
  (x = ErrHeaderNotEnough /\ stream h = false /\ Size (reader h) < HEADER_LENGTH) \/
  exists e0, x = WithStack e0.
Proof.
  unfold readHeaderBytes.
  destruct (stream h).
  - destruct (Read (reader h) _) as [[[d1 e1] r1]| |]; try discriminate.
    cbn [bind]. destruct e1 as [e1|].
    + intros E. inversion E. right. eexists. reflexivity.
    + destruct (Z.of_nat (length d1) <? HEADER_LENGTH).
      * destruct (Read r1 _) as [[[d2 e2] r2]| |]; try discriminate.
        cbn [bind]. destruct e2 as [e2|]; intros E; inversion E.
        right. eexists. reflexivity.
      * intros E. inversion E.
  - destruct (Z.ltb_spec (Size (reader h)) HEADER_LENGTH).
    + intros E. inversion E. left. auto.
    + destruct (Peek (reader h) HEADER_LENGTH) as [[[buf e1] r1]| |]; try discriminate.
      cbn [bind]. destruct e1 as [e1|].
      * intros E. inversion E. right. eexists. reflexivity.
      * destruct (Discard r1 HEADER_LENGTH) as [[[k e2] r2]| |]; try discriminate.
        cbn [bind]. destruct e2 as [e2|]; intros E; inversion E.
        right. eexists. reflexivity.
Qed.

(** The errors of the decoder, with the message about the serialization
    id spelled out: the id printed is always 0. *)
Lemma decodeHeader_error_values (K : Consts) (a : Arch) (buf : list byte)
  (header hd : DubboHeader) (e : error) :
  decodeHeader a buf header = (Some e, hd) ->
  e = ErrIllegalPackage \/ e = Errorf "serialization ID:0".
Proof.
  unfold decodeHeader.
  destruct (negb (at_ buf 0 =? MAGIC_HIGH) && negb (at_ buf 1 =? MAGIC_LOW)).
  - intros E. inversion E. left. reflexivity.
  - cbn [SerialID setSerialID].
    destruct (Z.eqb_spec (Z.land (at_ buf 2) SERIAL_MASK) Zero) as [Ez|_].
    + rewrite Ez. intros E. inversion E. right. reflexivity.
    + match goal with |- context [if ?c <? 0 then _ else _] => destruct (c <? 0) end;
        intros E; inversion E. left. reflexivity.
Qed.

(** A decoded header has a body length that is not negative. *)
Lemma decodeHeader_BodyLen_nonneg (K : Consts) (a : Arch) (buf : list byte)
  (header hd : DubboHeader) :
  decodeHeader a buf header = (None, hd) -> 0 <= BodyLen hd.
Proof.
  unfold decodeHeader.
  destruct (negb (at_ buf 0 =? MAGIC_HIGH) && negb (at_ buf 1 =? MAGIC_LOW));
    [discriminate|].
  destruct (SerialID _ =? Zero); [discriminate|].
  match goal with |- context [if BodyLen ?c <? 0 then _ else _] =>
    destruct (Z.ltb_spec (BodyLen c) 0) end; [discriminate|].
  intros E. inversion E; subst. assumption.
Qed.

(** [ReadHeader] taken apart: the bytes it obtained, what the decoder made
    of them, and what became of session and header. *)
Lemma ReadHeader_inv (K : Consts) (a : Arch) (h h' : HessianCodec)
  (header hd : DubboHeader) (e : option error) :
  ReadHeader a h header = Returns (e, h', hd) ->
  exists got r,
    readHeaderBytes h = Returns (got, r) /\ reader h' = r /\ stream h' = stream h /\
    match got with
    | inl x =>
        e = Some x /\ hd = header /\ pkgType h' = pkgType h /\ bodyLen h' = bodyLen h
    | inr buf =>
        (exists x, decodeHeader a buf header = (Some x, hd) /\ e = Some x /\
                   pkgType h' = pkgType h /\ bodyLen h' = bodyLen h) \/
        (decodeHeader a buf header = (None, hd) /\
         pkgType h' = Type_ hd /\ bodyLen h' = BodyLen hd /\
         e = if (Buffered r <? BodyLen hd) && negb (stream h)
             then Some ErrBodyNotEnough else None)
    end.
Proof.
  unfold ReadHeader.
  destruct (readHeaderBytes h) as [[got r]| |]; try discriminate.
  cbn [bind]. intros E. exists got, r. split; [reflexivity|].
  destruct got as [x|buf].
  - inversion E; subst. cbn. repeat split.
  - destruct (decodeHeader a buf header) as [[x|] hd1].
    + inversion E; subst. cbn.
      split; [reflexivity|]. split; [reflexivity|].
      left. exists x. repeat split.
    + cbn [with_reader reader bodyLen stream pkgType] in E.
      destruct ((Buffered r <? BodyLen hd1) && negb (stream h)) eqn:Hc;
        inversion E; subst; cbn;
        (split; [reflexivity|]); (split; [reflexivity|]);
        right; rewrite Hc; repeat split.
Qed.

(** X3: the errors of [ReadHeader].  An error it returns is "header not
    enough" (buffered mode, buffer capacity under sixteen), "body not
    enough" (buffered mode, fewer bytes buffered than the body length
    recorded), "illegal package", the message "serialization ID:0", or a
    failure of the reader wrapped by [WithStack]. *)
Theorem ReadHeader_errors (K : Consts) (a : Arch) (h h' : HessianCodec)
  (header hd : DubboHeader) (e : error) :
  ReadHeader a h header = Returns (Some e, h', hd) ->
  (e = ErrHeaderNotEnough /\ stream h = false /\ Size (reader h) < HEADER_LENGTH) \/
  (e = ErrBodyNotEnough /\ stream h = false /\ Buffered (reader h') < bodyLen h') \/
  e = ErrIllegalPackage \/
  e = Errorf "serialization ID:0" \/
  exists e0, e = WithStack e0.
Proof.
  intros H. destruct (@ReadHeader_inv _ _ _ _ _ _ _ H) as (got & r & Hb & Hr & Hs & Hgot).
  destruct got as [x|buf].
  - destruct Hgot as (E & _). inversion E; subst x.
    destruct (@readHeaderBytes_errors _ _ _ Hb) as [Hx|Hx]; [left; exact Hx|].
    right. right. right. right. exact Hx.
  - destruct Hgot as [(x & Hd & E & _)|(Hd & Ht & Hl & E)].
    + inversion E; subst x.
      destruct (@decodeHeader_error_values _ _ _ _ _ _ Hd) as [->| ->]; auto.
    + destruct (Z.ltb_spec (Buffered r) (BodyLen hd)); cbn [andb] in E;
        [|discriminate].
      destruct (stream h); cbn [negb] in E; [discriminate|].
      inversion E. right. left. rewrite Hr, Hl. auto.
Qed.

Lemma ReadHeader_errors_witness :
  ReadHeader (K := dubbo) Arch64 header_only_codec emptyHeader
  = Returns (Some ErrBodyNotEnough,
             {| pkgType := 0x24;
                reader := {| buf_data := []; buf_size := 4096;
                             rd_err := None; rd := [] |};
                bodyLen := 3; stream := false |},
             {| SerialID := 2; Type_ := 0x24; ID := -2; BodyLen := 3;
                ResponseStatus := 50 |})
  /\ (ErrBodyNotEnough = ErrBodyNotEnough /\ stream header_only_codec = false /\ 0 < 3).
Proof.
  split; [reflexivity|].
  destruct (@ReadHeader_errors dubbo Arch64 header_only_codec _ emptyHeader _ _
              (eq_refl : ReadHeader (K := dubbo) Arch64 header_only_codec emptyHeader
                         = Returns (Some ErrBodyNotEnough,
                                    {| pkgType := 0x24;
                                       reader := {| buf_data := []; buf_size := 4096;
                                                    rd_err := None; rd := [] |};
                                       bodyLen := 3; stream := false |},
                                    {| SerialID := 2; Type_ := 0x24; ID := -2;
                                       BodyLen := 3; ResponseStatus := 50 |})))
    as [(E & _)|[H|[E|[E|(e0 & E)]]]]; try discriminate E.
  exact H.
Defined.

(** The header the decoder fills, field by field. *)
Lemma decodeHeader_shape (K : Consts) (a : Arch) (buf : list byte)
  (header hd : DubboHeader) :
  decodeHeader a buf header = (None, hd) ->
  Z.land (at_ buf 2) SERIAL_MASK <> 0 /\
  hd = {| SerialID := Z.land (at_ buf 2) SERIAL_MASK;
          Type_ := Z.lor (Type_ header) (typeOfBytes buf);
          ID := int64_of_uint64 (BigEndian_Uint64 (skipn 4 buf));
          BodyLen := int_of_uint32 a (BigEndian_Uint32 (skipn 12 buf));
          ResponseStatus :=
            if Z.land (at_ buf 2) FLAG_REQUEST =? Zero
            then at_ buf 3 else ResponseStatus header |}.
Proof.
  unfold decodeHeader, typeOfBytes.
  destruct (negb (at_ buf 0 =? MAGIC_HIGH) && negb (at_ buf 1 =? MAGIC_LOW));
    [discriminate|].
  cbn [SerialID setSerialID].
  destruct (Z.eqb_spec (Z.land (at_ buf 2) SERIAL_MASK) Zero) as [|Hs];
    [discriminate|].
  destruct (Z.land (at_ buf 2) FLAG_EVENT =? Zero),
    (Z.land (at_ buf 2) FLAG_REQUEST =? Zero),
    (Z.land (at_ buf 2) FLAG_TWOWAY =? Zero); cbn [negb];
    cbn [orType setSerialID setResponseStatus setID setBodyLen
         SerialID Type_ ID BodyLen ResponseStatus];
    try destruct (at_ buf 3 =? Response_OK); cbn [negb];
    cbn [orType setSerialID setResponseStatus setID setBodyLen
         SerialID Type_ ID BodyLen ResponseStatus];
    (destruct (int_of_uint32 a (BigEndian_Uint32 (skipn 12 buf)) <? 0);
     [discriminate|]);
    intros E; inversion E; (split; [exact Hs|]); f_equal;
    rewrite ?Z.lor_0_l, ?Z.lor_0_r, ?Z.lor_assoc; reflexivity.
Qed.

Lemma typeOfBytes_decoded (K : Consts) (buf : list byte) :
  In (typeOfBytes buf) decodedTypes.
Proof.
  unfold typeOfBytes, decodedTypes.
  destruct (Z.land (at_ buf 2) FLAG_EVENT =? Zero),
    (Z.land (at_ buf 2) FLAG_REQUEST =? Zero),
    (Z.land (at_ buf 2) FLAG_TWOWAY =? Zero);
    try destruct (at_ buf 3 =? Response_OK);
    cbn; tauto.
Qed.

(** X4: what [ReadHeader] records.  When it returns nil or "body not
    enough" the session holds the type and the body length of the header,
    a length that is not negative, and nil in buffered mode means the body
    is in the buffer; on any other error type and length of the session are
    what they were.  The mode never changes. *)
Theorem ReadHeader_records (K : Consts) (a : Arch) (h h' : HessianCodec)
  (header hd : DubboHeader) (e : option error) :
  ReadHeader a h header = Returns (e, h', hd) ->
  stream h' = stream h /\
  (if recorded e
   then pkgType h' = Type_ hd /\ bodyLen h' = BodyLen hd /\ 0 <= bodyLen h'
   else pkgType h' = pkgType h /\ bodyLen h' = bodyLen h) /\
  (e = None -> stream h = false -> bodyLen h' <= Buffered (reader h')).
Proof.
  intros H. destruct (@ReadHeader_inv _ _ _ _ _ _ _ H) as (got & r & Hb & Hr & Hs & Hgot).
  split; [exact Hs|].
  destruct got as [x|buf].
  - destruct Hgot as (-> & _ & Ht & Hl).
    split; [|discriminate].
    destruct (@readHeaderBytes_errors _ _ _ Hb) as [(-> & _)|(e0 & ->)]; cbn; auto.
  - destruct Hgot as [(x & Hd & -> & Ht & Hl)|(Hd & Ht & Hl & ->)].
    + split; [|discriminate].
      destruct (@decodeHeader_error_values _ _ _ _ _ _ Hd) as [->| ->]; cbn; auto.
    + pose proof (@decodeHeader_BodyLen_nonneg _ _ _ _ _ Hd) as Hn.
      rewrite Hr, Hl.
      destruct (Z.ltb_spec (Buffered r) (BodyLen hd)); cbn [andb].
      * destruct (stream h); cbn [negb recorded]; (split; [auto|]);
          [intros _; discriminate | discriminate].
      * cbn [recorded]. split; [auto|]. intros _ _. lia.
Qed.

Lemma ReadHeader_records_witness :
  let h' := {| pkgType := 0x24;
               reader := {| buf_data := [1; 2; 3]; buf_size := 4096;
                            rd_err := None; rd := [] |};
               bodyLen := 3; stream := false |} in
  let hd := {| SerialID := 2; Type_ := 0x24; ID := -2; BodyLen := 3;
               ResponseStatus := 50 |} in
  ReadHeader (K := dubbo) Arch64 whole_frame_codec emptyHeader = Returns (None, h', hd) /\
  bodyLen h' <= Buffered (reader h').
Proof.
  split; [reflexivity|].
  exact (proj2 (proj2 (@ReadHeader_records dubbo Arch64 whole_frame_codec _ emptyHeader
                         {| SerialID := 2; Type_ := 0x24; ID := -2; BodyLen := 3;
                            ResponseStatus := 50 |} None eq_refl))
           eq_refl eq_refl).
Defined.

(** X5: a header whose serialization id is zero.  When the magic check lets
    the header through and the low five bits of byte 2 are zero,
    [ReadHeader] returns the error "serialization ID:0"; the header has its
    id set to zero and nothing else, and the session keeps its type and
    body length. *)
Theorem ReadHeader_zero_serial (K : Consts) (a : Arch) (h : HessianCodec)
  (header : DubboHeader) (buf : list byte) (r : Reader) :
  readHeaderBytes h = Returns (inr buf, r) ->
  at_ buf 0 = MAGIC_HIGH \/ at_ buf 1 = MAGIC_LOW ->
  Z.land (at_ buf 2) SERIAL_MASK = 0 ->
  ReadHeader a h header
  = Returns (Some (Errorf "serialization ID:0"), with_reader h r,
             setSerialID header 0).
Proof.
  intros Hb Hm Hz. unfold ReadHeader. rewrite Hb. cbn [bind].
  unfold decodeHeader.
  assert (Em : negb (at_ buf 0 =? MAGIC_HIGH) && negb (at_ buf 1 =? MAGIC_LOW) = false).
  { destruct Hm as [E|E]; rewrite E, Z.eqb_refl; cbn [negb andb];
      [reflexivity | apply andb_false_r]. }
  rewrite Em, Hz. reflexivity.
Qed.

Lemma ReadHeader_zero_serial_witness :
  ReadHeader (K := dubbo) Arch64 zero_serial_codec used_header
  = Returns (Some (Errorf "serialization ID:0"),
             NewHessianCodec {| buf_data := [9]; buf_size := 4096;
                                rd_err := None; rd := [] |},
             {| SerialID := 0; Type_ := PackageRequest; ID := 1; BodyLen := 8;
                ResponseStatus := 7 |}).
Proof.
  refine (@ReadHeader_zero_serial dubbo Arch64 zero_serial_codec used_header
            (zero_serial_header dubbo)
            {| buf_data := [9]; buf_size := 4096; rd_err := None; rd := [] |}
            eq_refl _ eq_refl).
  left. reflexivity.
Defined.

(** X6: the package types of decoded headers.  A header read into an empty
    one has one of eight types: a request or a response, the request with
    or without the two-way bit, the response with or without the exception
    bit, each with or without the heartbeat bit.  The exception bit is set
    exactly when the frame is a response whose status is not OK, and a
    request leaves the status at zero. *)
Theorem ReadHeader_type_taxonomy (K : Consts) (a : Arch) (h h' : HessianCodec)
  (hd : DubboHeader) (e : option error) :
  ReadHeader a h emptyHeader = Returns (e, h', hd) ->
  recorded e = true ->
  In (Type_ hd) decodedTypes /\
  (Z.land (Type_ hd) PackageResponse_Exception <> 0 <->
   Z.land (Type_ hd) PackageResponse <> 0 /\ ResponseStatus hd <> Response_OK) /\
  (Z.land (Type_ hd) PackageRequest <> 0 -> ResponseStatus hd = 0).
Proof.
  intros H Hrec.
  destruct (@ReadHeader_inv _ _ _ _ _ _ _ H) as (got & r & Hb & Hr & Hs & Hgot).
  assert (Hd : exists buf, decodeHeader a buf emptyHeader = (None, hd)).
  { destruct got as [x|buf].
    - destruct Hgot as (-> & _).
      destruct (@readHeaderBytes_errors _ _ _ Hb) as [(-> & _)|(e0 & ->)]; discriminate.
    - destruct Hgot as [(x & Hd & -> & _)|(Hd & _)]; [|eauto].
      destruct (@decodeHeader_error_values _ _ _ _ _ _ Hd) as [->| ->]; discriminate. }
  destruct Hd as (buf & Hd).
  destruct (@decodeHeader_shape _ _ _ _ _ Hd) as (_ & ->).
  cbn [Type_ ResponseStatus emptyHeader]. rewrite Z.lor_0_l.
  split; [apply typeOfBytes_decoded|].
  unfold typeOfBytes.
  destruct (Z.land (at_ buf 2) FLAG_EVENT =? Zero),
    (Z.land (at_ buf 2) FLAG_REQUEST =? Zero),
    (Z.land (at_ buf 2) FLAG_TWOWAY =? Zero);
    try destruct (Z.eqb_spec (at_ buf 3) Response_OK);
    cbn; repeat split; try tauto; try discriminate; intros; try tauto;
    try congruence.
Qed.

Lemma ReadHeader_type_taxonomy_witness :
  let hd := {| SerialID := 2; Type_ := 0x24; ID := -2; BodyLen := 3;
               ResponseStatus := 50 |} in
  (exists h', ReadHeader (K := dubbo) Arch64 whole_frame_codec emptyHeader
              = Returns (None, h', hd)) /\
  In (Type_ hd) decodedTypes.
Proof.
  split; [eexists; reflexivity|].
  exact (proj1 (@ReadHeader_type_taxonomy dubbo Arch64 whole_frame_codec _
                  {| SerialID := 2; Type_ := 0x24; ID := -2; BodyLen := 3;
                     ResponseStatus := 50 |} None eq_refl eq_refl)).
Defined.

(** A header that was recorded was decoded from sixteen bytes obtained. *)
Lemma ReadHeader_recorded_decoded (K : Consts) (a : Arch) (h h' : HessianCodec)
  (header hd : DubboHeader) (e : option error) :
  ReadHeader a h header = Returns (e, h', hd) ->
  recorded e = true ->
  exists buf r,
    readHeaderBytes h = Returns (inr buf, r) /\
    decodeHeader a buf header = (None, hd) /\
    h' = {| pkgType := Type_ hd; reader := r; bodyLen := BodyLen hd;
            stream := stream h |} /\
    e = if (Buffered r <? BodyLen hd) && negb (stream h)
        then Some ErrBodyNotEnough else None.
Proof.
  intros H Hrec.
  destruct (@ReadHeader_inv _ _ _ _ _ _ _ H) as (got & r & Hb & Hr & Hs & Hgot).
  destruct got as [x|buf].
  - destruct Hgot as (-> & _).
    destruct (@readHeaderBytes_errors _ _ _ Hb) as [(-> & _)|(e0 & ->)]; discriminate.
  - destruct Hgot as [(x & Hd & -> & _)|(Hd & Ht & Hl & He)].
    + destruct (@decodeHeader_error_values _ _ _ _ _ _ Hd) as [->| ->]; discriminate.
    + exists buf, r. repeat split; try assumption.
      destruct h'. cbn in *. subst. reflexivity.
Qed.

(** X7: the fields of a recorded header.  Its serialization id is between 1
    and 31, its body length is not negative, and its request id is a
    signed 64-bit number, whatever bytes were read. *)
Theorem ReadHeader_field_ranges (K : Consts) (a : Arch) (h h' : HessianCodec)
  (header hd : DubboHeader) (e : option error) :
  ReadHeader a h header = Returns (e, h', hd) ->
  recorded e = true ->
  1 <= SerialID hd <= 31 /\ 0 <= BodyLen hd /\ - 2 ^ 63 <= ID hd < 2 ^ 63.
Proof.
  intros H Hrec.
  destruct (@ReadHeader_recorded_decoded _ _ _ _ _ _ _ H Hrec) as (buf & r & _ & Hd & _).
  pose proof (@decodeHeader_BodyLen_nonneg _ _ _ _ _ Hd) as Hn.
  destruct (@decodeHeader_shape _ _ _ _ _ Hd) as (Hs & ->).
  cbn [SerialID BodyLen ID] in *.
  assert (Hm : 0 <= Z.land (at_ buf 2) SERIAL_MASK < 32).
  { change SERIAL_MASK with (Z.ones 5). rewrite Z.land_ones by lia.
    apply Z.mod_pos_bound. reflexivity. }
  repeat split; try lia.
  - unfold int64_of_uint64, to_signed.
    pose proof (Z.mod_pos_bound (BigEndian_Uint64 (skipn 4 buf) + 2 ^ (64 - 1)) (2 ^ 64)
                  eq_refl) as Hb.
    change (2 ^ (64 - 1)) with (2 ^ 63) in *. lia.
  - unfold int64_of_uint64, to_signed.
    pose proof (Z.mod_pos_bound (BigEndian_Uint64 (skipn 4 buf) + 2 ^ (64 - 1)) (2 ^ 64)
                  eq_refl) as Hb.
    change (2 ^ (64 - 1)) with (2 ^ 63) in *. lia.
Qed.

Lemma ReadHeader_field_ranges_witness :
  let hd := {| SerialID := 2; Type_ := 0x24; ID := -2; BodyLen := 3;
               ResponseStatus := 50 |} in
  (exists h', ReadHeader (K := dubbo) Arch64 whole_frame_codec emptyHeader
              = Returns (None, h', hd)) /\
  (1 <= SerialID hd <= 31 /\ 0 <= BodyLen hd /\ - 2 ^ 63 <= ID hd < 2 ^ 63).
Proof.
  split; [eexists; reflexivity|].
  exact (@ReadHeader_field_ranges dubbo Arch64 whole_frame_codec _ emptyHeader
           {| SerialID := 2; Type_ := 0x24; ID := -2; BodyLen := 3;
              ResponseStatus := 50 |} None eq_refl eq_refl).
Defined.

(** Whether the decoder accepts, and with which error it refuses, does not
    depend on the header it fills. *)
Lemma decodeHeader_error_independent (K : Consts) (a : Arch) (buf : list byte)
  (h1 h2 : DubboHeader) :
  fst (decodeHeader a buf h1) = fst (decodeHeader a buf h2).
Proof.
  unfold decodeHeader.
  destruct (negb (at_ buf 0 =? MAGIC_HIGH) && negb (at_ buf 1 =? MAGIC_LOW));
    [reflexivity|].
  cbn [SerialID setSerialID].
  destruct (Z.land (at_ buf 2) SERIAL_MASK =? Zero); [reflexivity|].
  cbn [BodyLen setBodyLen].
  destruct (int_of_uint32 a (BigEndian_Uint32 (skipn 12 buf)) <? 0); reflexivity.
Qed.

(** X8: reading into a header used before.  The type read is or-ed into
    the type the header had, so the bits of the earlier frame stay; id,
    request id and body length are those of the new frame; the status is
    that of the new frame for a response and stays what it was for a
    request.  [hd0] is the header the same call fills from an empty one. *)
Theorem ReadHeader_into_used_header (K : Consts) (a : Arch) (h h' : HessianCodec)
  (header hd : DubboHeader) (e : option error) :
  ReadHeader a h header = Returns (e, h', hd) ->
  recorded e = true ->
  exists hd0,
    ReadHeader a h emptyHeader = Returns (e, with_pkgType h' (Type_ hd0), hd0) /\
    Type_ hd = Z.lor (Type_ header) (Type_ hd0) /\
    SerialID hd = SerialID hd0 /\ ID hd = ID hd0 /\ BodyLen hd = BodyLen hd0 /\
    ResponseStatus hd =
      if Z.land (Type_ hd0) PackageRequest =? 0
      then ResponseStatus hd0 else ResponseStatus header.
Proof.
  intros H Hrec.
  destruct (@ReadHeader_recorded_decoded _ _ _ _ _ _ _ H Hrec) as (buf & r & Hb & Hd & -> & ->).
  pose proof (@decodeHeader_error_independent K a buf emptyHeader header) as Hi.
  rewrite Hd in Hi. destruct (decodeHeader a buf emptyHeader) as [e0 hd0] eqn:Hd0.
  cbn [fst] in Hi. subst e0.
  destruct (@decodeHeader_shape _ _ _ _ _ Hd) as (_ & Ehd).
  destruct (@decodeHeader_shape _ _ _ _ _ Hd0) as (_ & Ehd0).
  exists hd0. split.
  - unfold ReadHeader. rewrite Hb. cbn [bind]. rewrite Hd0.
    cbn [with_reader reader bodyLen stream pkgType with_pkgType].
    rewrite Ehd, Ehd0. cbn [BodyLen].
    destruct ((Buffered r <? int_of_uint32 a (BigEndian_Uint32 (skipn 12 buf)))
              && negb (stream h)); reflexivity.
  - rewrite Ehd, Ehd0. cbn [Type_ SerialID ID BodyLen ResponseStatus emptyHeader].
    rewrite Z.lor_0_l. repeat split.
    unfold typeOfBytes.
    destruct (Z.land (at_ buf 2) FLAG_EVENT =? Zero),
      (Z.land (at_ buf 2) FLAG_REQUEST =? Zero),
      (Z.land (at_ buf 2) FLAG_TWOWAY =? Zero);
      try destruct (at_ buf 3 =? Response_OK); reflexivity.
Qed.

Lemma ReadHeader_into_used_header_witness :
  ReadHeader (K := dubbo) Arch64 whole_frame_codec used_header
  = Returns (None,
             {| pkgType := 0x26;
                reader := {| buf_data := [1; 2; 3]; buf_size := 4096;
                             rd_err := None; rd := [] |};
                bodyLen := 3; stream := false |},
             {| SerialID := 2; Type_ := 0x26; ID := -2; BodyLen := 3;
                ResponseStatus := 50 |})
  /\ exists hd0,
       Type_ hd0 = 0x24 /\ 0x26 = Z.lor (Type_ used_header) (Type_ hd0).
Proof.
  split; [reflexivity|].
  destruct (@ReadHeader_into_used_header dubbo Arch64 whole_frame_codec _ used_header
              {| SerialID := 2; Type_ := 0x26; ID := -2; BodyLen := 3;
                 ResponseStatus := 50 |} None eq_refl eq_refl)
    as (hd0 & E & Ht & _).
  exists hd0. split; [|exact Ht].
  inversion E. reflexivity.
Defined.

(** X9: a source that fails at once.  On a reader with an empty buffer and
    a capacity of sixteen at least, when the next read of the source gives
    no bytes and the error [e], or the source is at its end and [e] is the
    end of file, [ReadHeader] returns [e] wrapped by [WithStack] in either
    mode, and header, type and body length are what they were. *)
Theorem ReadHeader_source_failure (K : Consts) (a : Arch) (h : HessianCodec)
  (header : DubboHeader) (e : error) :
  buf_data (reader h) = [] -> rd_err (reader h) = None ->
  (16 <= buf_size (reader h))%nat ->
  (rd (reader h) = [] /\ e = io_EOF) \/
  (exists s, rd (reader h) = ([], Some e) :: s) ->
  exists r',
    ReadHeader a h header = Returns (Some (WithStack e), with_reader h r', header) /\
    buf_data r' = [].
Proof.
  intros Hd He Hsz Hsrc.
  assert (Hread : forall k, exists s', src_Read k (rd (reader h)) = ([], Some e, s')).
  { intros k. destruct Hsrc as [(-> & ->)|(s0 & ->)]; eexists; reflexivity. }
  assert (Hb : exists r', readHeaderBytes h = Returns (inl (WithStack e), r') /\
                          buf_data r' = []).
  { unfold readHeaderBytes. destruct (stream h).
    - change (length (repeat 0 (Z.to_nat HEADER_LENGTH))) with 16%nat.
      unfold Read. cbn [Nat.eqb]. rewrite Hd, He.
      destruct (buf_size (reader h) <=? 16)%nat.
      + destruct (Hread 16%nat) as (s' & ->). cbn [bind].
        eexists. split; reflexivity.
      + destruct (Hread (buf_size (reader h))) as (s' & ->). cbn [bind].
        eexists. split; reflexivity.
    - destruct (Z.ltb_spec (Size (reader h)) HEADER_LENGTH) as [Hlt|_];
        [unfold Size, HEADER_LENGTH in Hlt; lia|].
      unfold Peek. change (HEADER_LENGTH <? 0) with false. cbv iota.
      destruct (buf_size (reader h)) as [|f] eqn:Hf; [lia|].
      rewrite Peek_loop_eq.
      unfold Buffered at 1 2. rewrite Hd, He. cbn [length Z.of_nat].
      change (0 <? HEADER_LENGTH) with true.
      assert (Hpos : (0 <? Size (reader h)) = true).
      { apply Z.ltb_lt. unfold Size. lia. }
      rewrite Hpos. cbn [andb].
      unfold fill. rewrite Hd, Hf. cbn [length Nat.leb bind].
      change maxConsecutiveEmptyReads with (S 99). rewrite fill_loop_S.
      destruct (Hread (buf_size (reader h) - length (buf_data (reader h)))%nat)
        as (s' & Es).
      rewrite Es. cbv zeta. cbv iota beta. cbn [buf_data buf_size rd].
      rewrite Peek_loop_eq. cbn [rd_err]. rewrite andb_false_r. cbn [bind].
      rewrite Hd. cbn [app].
      unfold Size, Buffered, readErr. cbn [buf_size buf_data rd_err length Z.of_nat].
      rewrite Hf.
      destruct (Z.ltb_spec (Z.of_nat (S f)) HEADER_LENGTH) as [Hlt|_];
        [unfold HEADER_LENGTH in Hlt; lia|].
      change (0 <? HEADER_LENGTH) with true. cbv iota. cbn [bind].
      eexists. split; reflexivity. }
  destruct Hb as (r' & Hb & Hr). exists r'. split; [|exact Hr].
  unfold ReadHeader. rewrite Hb. reflexivity.
Qed.

Lemma ReadHeader_source_failure_witness :
  (exists r',
     ReadHeader (K := dubbo) Arch64 (NewHessianCodec failing_reader) used_header
     = Returns (Some (WithStack (SourceError 3)),
                with_reader (NewHessianCodec failing_reader) r', used_header)
     /\ buf_data r' = []) /\
  (exists r',
     ReadHeader (K := dubbo) Arch64 (NewStreamHessianCodecCustom 0 failing_reader 0)
       used_header
     = Returns (Some (WithStack (SourceError 3)),
                with_reader (NewStreamHessianCodecCustom 0 failing_reader 0) r',
                used_header)
     /\ buf_data r' = []).
Proof.
  split.
  - apply (@ReadHeader_source_failure dubbo Arch64 (NewHessianCodec failing_reader)
             used_header (SourceError 3)).
    + reflexivity.
    + reflexivity.
    + simpl. lia.
    + right. eexists. reflexivity.
  - apply (@ReadHeader_source_failure dubbo Arch64
             (NewStreamHessianCodecCustom 0 failing_reader 0)
             used_header (SourceError 3)).
    + reflexivity.
    + reflexivity.
    + simpl. lia.
    + right. eexists. reflexivity.
Defined.

(** X10: with the sixteen header bytes in the buffer, [ReadHeader] consumes
    exactly those, whatever it returns, and does not read the source.  The
    errors it can return then are "body not enough", "illegal package" and
    "serialization ID:0": the header is consumed also when it is refused. *)
Theorem ReadHeader_consumes_header (K : Consts) (a : Arch) (h h' : HessianCodec)
  (header hd : DubboHeader) (e : option error) (hdr rest : list byte) :
  length hdr = 16%nat ->
  buf_data (reader h) = hdr ++ rest ->
  (16 <= buf_size (reader h))%nat ->
  ReadHeader a h header = Returns (e, h', hd) ->
  buf_data (reader h') = rest /\ rd (reader h') = rd (reader h) /\
  (e = None \/ e = Some ErrBodyNotEnough \/ e = Some ErrIllegalPackage \/
   e = Some (Errorf "serialization ID:0")).
Proof.
  intros Hlen Hdata Hsz H.
  pose proof (readHeaderBytes_buffered h hdr rest Hlen Hdata Hsz) as Hb.
  destruct (@ReadHeader_inv _ _ _ _ _ _ _ H) as (got & r & Hb' & Hr & Hs & Hgot).
  rewrite Hb in Hb'. injection Hb' as Eg Er. subst got.
  rewrite Hr, <- Er. cbn [buf_data rd]. split; [reflexivity|]. split; [reflexivity|].
  destruct Hgot as [(x & Hd & -> & _)|(Hd & _ & _ & ->)].
  - destruct (@decodeHeader_error_values _ _ _ _ _ _ Hd) as [->| ->]; auto.
  - match goal with |- context [if ?c then _ else _] => destruct c end; auto.
Qed.

Lemma ReadHeader_consumes_header_witness :
  ReadHeader (K := dubbo) Arch64 zero_serial_codec used_header
  = Returns (Some (Errorf "serialization ID:0"),
             NewHessianCodec {| buf_data := [9]; buf_size := 4096;
                                rd_err := None; rd := [] |},
             {| SerialID := 0; Type_ := PackageRequest; ID := 1; BodyLen := 8;
                ResponseStatus := 7 |})
  /\ buf_data {| buf_data := [9]; buf_size := 4096; rd_err := None; rd := [] |} = [9].
Proof.
  split; [reflexivity|].
  refine (proj1 (@ReadHeader_consumes_header dubbo Arch64 zero_serial_codec
                   (NewHessianCodec {| buf_data := [9]; buf_size := 4096;
                                       rd_err := None; rd := [] |})
                   used_header
                   {| SerialID := 0; Type_ := PackageRequest; ID := 1; BodyLen := 8;
                      ResponseStatus := 7 |}
                   (Some (Errorf "serialization ID:0"))
                   (zero_serial_header dubbo) [9] eq_refl eq_refl _ eq_refl)).
  simpl. lia.
Defined.

End HeaderOutcome.

(** * The header bytes in buffered mode *)

Module HeaderAssembly.
Import BufioFacts ReaderFacts.

Lemma chunky_inv (r : Reader) :
  chunky r = true ->
  rd_err r = None /\
  forallb (fun x => no_error (snd x) && (0 <? length (fst x))%nat) (rd r) = true.
Proof.
  unfold chunky. intros H. apply andb_true_iff in H. destruct H as [He Hs].
  split; [|exact Hs]. destruct (rd_err r); [discriminate|reflexivity].
Qed.

(** On a reader whose source has bytes to give, [fill] adds bytes to the
    buffer, within its capacity, and loses none. *)
Lemma fill_loop_chunky (b : Reader) :
  chunky b = true -> rd b <> [] ->
  (length (buf_data b) < buf_size b)%nat ->
  pending (fill_loop maxConsecutiveEmptyReads b) = pending b /\
  chunky (fill_loop maxConsecutiveEmptyReads b) = true /\
  buf_size (fill_loop maxConsecutiveEmptyReads b) = buf_size b /\
  (length (buf_data b) < length (buf_data (fill_loop maxConsecutiveEmptyReads b))
   <= buf_size b)%nat.
Proof.
  intros Hc Hne Hfree. destruct (chunky_inv _ Hc) as [Herr Hs].
  change maxConsecutiveEmptyReads with (S 99). rewrite fill_loop_S.
  destruct (rd b) as [|[bs e0] s0] eqn:Hrd; [contradiction|].
  cbn [forallb fst snd] in Hs.
  apply andb_true_iff in Hs. destruct Hs as [Hhd Hs0].
  apply andb_true_iff in Hhd. destruct Hhd as [He0 Hbs].
  destruct e0; [discriminate|]. apply Nat.ltb_lt in Hbs.
  unfold src_Read, pending, chunky.
  destruct (Nat.leb_spec (length bs) (buf_size b - length (buf_data b))) as [Hfit|Hbig].
  - cbv zeta. cbv iota beta.
    destruct (Nat.ltb_spec 0 (length bs)); [|lia].
    cbn [buf_data rd rd_err buf_size]. rewrite Hrd, Herr.
    cbn [map fst concat no_error andb]. rewrite length_app.
    repeat split; try lia.
    + rewrite <- app_assoc. reflexivity.
    + exact Hs0.
  - cbv zeta. cbv iota beta.
    assert (Hf : length (firstn (buf_size b - length (buf_data b)) bs)
                 = (buf_size b - length (buf_data b))%nat)
      by (rewrite length_firstn; lia).
    destruct (Nat.ltb_spec 0 (length (firstn (buf_size b - length (buf_data b)) bs)));
      [|lia].
    cbn [buf_data rd rd_err buf_size]. rewrite Hrd, Herr.
    cbn [map fst snd concat no_error andb forallb]. rewrite length_app, Hf.
    repeat split; try lia.
    + rewrite <- app_assoc, (app_assoc (firstn _ bs)), firstn_skipn. reflexivity.
    + rewrite Hs0, andb_true_r. apply Nat.ltb_lt. rewrite length_skipn. lia.
Qed.

Lemma pending_length (r : Reader) :
  length (pending r) = (length (buf_data r) + length (concat (map fst (rd r))))%nat.
Proof. unfold pending. apply length_app. Qed.

(** The loop of [Peek] on such a reader: it stops with [n] bytes buffered,
    all of what was pending still pending. *)
Lemma Peek_loop_chunky (fuel : nat) : forall (n : Z) (b : Reader),
  chunky b = true ->
  (length (buf_data b) <= buf_size b)%nat ->
  n <= Z.of_nat (length (pending b)) -> n <= Size b ->
  (buf_size b - length (buf_data b) <= fuel)%nat ->
  exists b',
    Peek_loop fuel n b = Returns b' /\ pending b' = pending b /\
    chunky b' = true /\ n <= Buffered b' /\ buf_size b' = buf_size b.
Proof.
  induction fuel as [|fuel IH]; intros n b Hc Hcap Hpend Hsize Hfuel;
    rewrite Peek_loop_eq;
    (destruct (Z.ltb_spec (Buffered b) n) as [Hlt|Hge];
     [|exists b; cbn [andb]; repeat split; [exact Hc | lia]]);
    destruct (chunky_inv _ Hc) as [Herr _]; rewrite Herr;
    (destruct (Z.ltb_spec (Buffered b) (Size b)) as [Hroom|Hfull]; [|lia]);
    unfold Buffered, Size in *; cbn [andb].
  - lia.
  - unfold fill.
    destruct (Nat.leb_spec (buf_size b) (length (buf_data b))); [lia|].
    cbn [bind].
    assert (Hne : rd b <> []).
    { intros E. rewrite pending_length, E in Hpend. cbn in Hpend. lia. }
    destruct (fill_loop_chunky b Hc Hne ltac:(lia)) as (Hp & Hc1 & Hs1 & Hl1).
    destruct (IH n (fill_loop maxConsecutiveEmptyReads b) Hc1)
      as (b' & E & Hp' & Hc' & Hn' & Hs').
    + rewrite Hs1. lia.
    + rewrite Hp. exact Hpend.
    + unfold Size. rewrite Hs1. exact Hsize.
    + rewrite Hs1. lia.
    + exists b'. rewrite E. repeat split; try assumption; congruence.
Qed.

(** X11: in buffered mode the sixteen header bytes are gathered from a
    source that gives them in pieces.  On a reader without errors whose
    pieces are not empty and which has sixteen bytes to deliver, the bytes
    obtained are the next sixteen, and what is behind them stays pending. *)
Theorem readHeaderBytes_buffered_assembles (h : HessianCodec) :
  stream h = false ->
  chunky (reader h) = true ->
  (length (buf_data (reader h)) <= buf_size (reader h))%nat ->
  (16 <= buf_size (reader h))%nat ->
  (16 <= length (pending (reader h)))%nat ->
  exists r',
    readHeaderBytes h = Returns (inr (firstn 16 (pending (reader h))), r') /\
    pending r' = skipn 16 (pending (reader h)).
Proof.
  intros Hs Hc Hcap Hsz Hpend. unfold readHeaderBytes. rewrite Hs.
  destruct (Z.ltb_spec (Size (reader h)) HEADER_LENGTH) as [Hlt|_];
    [unfold Size, HEADER_LENGTH in Hlt; lia|].
  destruct (@Peek_loop_chunky (buf_size (reader h)) HEADER_LENGTH (reader h) Hc Hcap)
    as (b1 & E & Hp & Hc1 & Hn & Hs1).
  - unfold HEADER_LENGTH. lia.
  - unfold HEADER_LENGTH, Size. lia.
  - lia.
  - unfold Peek. change (HEADER_LENGTH <? 0) with false. cbv iota.
    rewrite E. cbn [bind].
    destruct (Z.ltb_spec (Size b1) HEADER_LENGTH) as [Hlt|_];
      [unfold Size, HEADER_LENGTH in Hlt; lia|].
    destruct (Z.ltb_spec (Buffered b1) HEADER_LENGTH); [lia|].
    cbn [bind]. rewrite Discard_buffered by (unfold HEADER_LENGTH in *; lia).
    cbn [bind]. change (Z.to_nat HEADER_LENGTH) with 16%nat.
    assert (Hb1 : (16 <= length (buf_data b1))%nat)
      by (unfold Buffered, HEADER_LENGTH in Hn; lia).
    eexists. split.
    + rewrite <- Hp. unfold pending. rewrite firstn_app.
      replace (16 - length (buf_data b1))%nat with 0%nat by lia.
      cbn [firstn]. rewrite app_nil_r. reflexivity.
    + rewrite <- Hp. unfold pending. cbn [buf_data rd]. rewrite skipn_app.
      replace (16 - length (buf_data b1))%nat with 0%nat by lia.
      reflexivity.
Qed.

Lemma readHeaderBytes_buffered_assembles_witness :
  exists r',
    readHeaderBytes two_piece_codec
    = Returns (inr [1; 2; 3; 4; 5; 6; 7; 8; 9; 10; 11; 12; 13; 14; 15; 16], r') /\
    pending r' = [17; 18].
Proof.
  apply (@readHeaderBytes_buffered_assembles two_piece_codec).
  - reflexivity.
  - reflexivity.
  - simpl. lia.
  - simpl. lia.
  - simpl. lia.
Defined.

End HeaderAssembly.

(** * A whole frame *)

Module Frames.
Import BufioFacts ReaderFacts StreamFacts HeaderFacts.

(** X12: header and body of one frame.  When the sixteen bytes obtained are
    the layout of the fields [f] and the body with more bytes behind it is
    available (pending on a source without errors in streaming mode, in the
    buffer in buffered mode), [ReadHeader] returns nil with the fields of
    [f], and the body read on the session it leaves is the body, byte for
    byte; the bytes behind it are what is available next. *)
Theorem frame_read (K : Consts) (a : Arch) (h : HessianCodec) (f : HeaderFields)
  (r : Reader) (body rest : list byte) :
  consts_ok K = true -> fields_ok a f = true ->
  readHeaderBytes h = Returns (inr (spec_encodeHeader f), r) ->
  (if stream h then healthy r = true else Buffered r <= Size r) ->
  available (stream h) r = body ++ rest ->
  f_len f = Z.of_nat (length body) ->
  exists h1 r2,
    ReadHeader a h emptyHeader = Returns (None, h1, decodedHeader f) /\
    readBodyBytes h1 = Returns (inr body, r2) /\
    available (stream h) r2 = rest.
Proof.
  intros HK Hf Hb Hok Hav Hlen.
  exists {| pkgType := spec_packageType f; reader := r; bodyLen := f_len f;
            stream := stream h |}.
  assert (Hfirst : firstn (length body) (body ++ rest) = body).
  { rewrite firstn_app, Nat.sub_diag, firstn_all. cbn [firstn]. apply app_nil_r. }
  assert (Hskip : skipn (length body) (body ++ rest) = rest).
  { rewrite skipn_app, Nat.sub_diag, skipn_all. reflexivity. }
  unfold ReadHeader. rewrite Hb. cbn [bind].
  rewrite (decodeHeader_encoded K a f HK Hf).
  cbn [with_reader reader bodyLen stream pkgType Type_ BodyLen].
  unfold readBodyBytes. cbn [stream bodyLen reader].
  unfold available in *. destruct (stream h) eqn:Hs.
  - rewrite andb_false_r. cbn [perrors_WithStack].
    destruct (Z.ltb_spec (f_len f) 0); [lia|].
    destruct (@readBody_loop_healthy (readBody_fuel (f_len f) r) []
                (length body) r Hok) as (r' & E & Hp & _).
    + rewrite Hav, length_app. lia.
    + unfold readBody_fuel. rewrite Hlen, Nat2Z.id. lia.
    + cbn [length app Nat.add] in E. change (Z.of_nat 0) with 0 in E.
      rewrite <- Hlen in E. rewrite Hlen, Nat2Z.id, <- Hlen.
      exists r'. split; [reflexivity|].
      rewrite E, Hp, Hav, Hfirst, Hskip. split; reflexivity.
  - assert (Hbuf : Buffered r = Z.of_nat (length body) + Z.of_nat (length rest)).
    { unfold Buffered. rewrite Hav, length_app. lia. }
    destruct (Z.ltb_spec (Buffered r) (f_len f)); [lia|].
    cbn [andb perrors_WithStack].
    rewrite Peek_buffered by lia. cbn [bind].
    rewrite Discard_buffered by lia. cbn [bind].
    replace (Z.to_nat (f_len f)) with (length body) by lia.
    rewrite Hav, Hfirst, Hskip.
    eexists. split; [reflexivity|]. split; reflexivity.
Qed.

Lemma frame_read_witness :
  exists h1 r2,
    ReadHeader (K := dubbo) Arch64 whole_frame_codec emptyHeader
    = Returns (None, h1, decodedHeader (K := dubbo) sample_fields) /\
    readBodyBytes h1 = Returns (inr [1; 2; 3], r2) /\
    available false r2 = [].
Proof.
  apply (@frame_read dubbo Arch64 whole_frame_codec sample_fields
           {| buf_data := [1; 2; 3]; buf_size := 4096; rd_err := None; rd := [] |}
           [1; 2; 3] []).
  - reflexivity.
  - reflexivity.
  - reflexivity.
  - simpl. unfold Buffered, Size. simpl. lia.
  - reflexivity.
  - reflexivity.
Defined.

End Frames.

(** * More on the dispatch of the body *)

Module BodyDispatch.
Import ReaderFacts HeaderOutcome.

(** Takes the branches of a dispatch apart, one test at a time. *)
Ltac branches :=
  repeat first
    [ progress cbn [bind]
    | progress unfold assert_string, assert_map, store_Exception, load_Attachments,
        index_any, seen, seen_attachments
    | match goal with
      | |- context [match ?x with _ => _ end] => destruct x
      end ].

Section WithCollaborators.

Context {C : Collaborators}.

(** Whatever [ReadBody] returns, the session it leaves is the one it was
    given with the reader as the body read left it. *)
Lemma ReadBody_session (h h' : HessianCodec) (o o' : any) (e : option error) :
  ReadBody h o = Returns (e, h', o') ->
  exists got r, readBodyBytes h = Returns (got, r) /\ h' = with_reader h r.
Proof.
  unfold ReadBody.
  destruct (readBodyBytes h) as [[got r]| |]; try discriminate.
  cbn [bind]. intros E. exists got, r. split; [reflexivity|]. revert E.
  destruct got as [x|buf]; [intros E; inversion E; reflexivity|].
  branches; intros E; inversion E; reflexivity.
Qed.

Lemma ReadAttachments_session (h h' : HessianCodec) (m : GoMap) (e : option error) :
  ReadAttachments h = Returns (m, e, h') ->
  exists got r, readBodyBytes h = Returns (got, r) /\ h' = with_reader h r.
Proof.
  unfold ReadAttachments.
  destruct (readBodyBytes h) as [[got r]| |]; try discriminate.
  cbn [bind]. intros E. exists got, r. split; [reflexivity|]. revert E.
  destruct got as [x|buf]; [intros E; inversion E; reflexivity|].
  branches; intros E; inversion E; reflexivity.
Qed.

(** X13: a body that is skipped.  When the frame is not an exception and
    either no result slot is given or the frame is a heartbeat, [ReadBody]
    reads the body and returns nil: the result slot is as it was and no
    collaborator has a say in the outcome. *)
Theorem ReadBody_skips_body (h : HessianCodec) (rspObj : any) (buf : list byte)
  (r : Reader) :
  readBodyBytes h = Returns (inr buf, r) ->
  isResponseException (pkgType h) = false ->
  is_nil rspObj = true \/
  Z.land (pkgType h) PackageType_BitSize = Z.lor PackageRequest PackageHeartbeat \/
  Z.land (pkgType h) PackageType_BitSize = Z.lor PackageResponse PackageHeartbeat ->
  ReadBody h rspObj = Returns (None, with_reader h r, rspObj).
Proof.
  intros Hb Hex Hskip. unfold isResponseException in Hex.
  unfold ReadBody. rewrite Hb. cbn [bind with_reader pkgType]. rewrite Hex.
  destruct Hskip as [Hnil|[Ht|Ht]].
  - rewrite Hnil. cbn [negb]. branches; reflexivity.
  - rewrite Ht. reflexivity.
  - rewrite Ht. reflexivity.
Qed.

(** X14: the dispatch looks at the package type through the mask 0x2f
    only.  Two sessions that differ in bits outside the mask, the two-way
    bit among them, have their bodies read and decoded alike, by
    [ReadBody] and by [ReadAttachments]. *)
Theorem dispatch_by_masked_type (h : HessianCodec) (t1 t2 : PackageType)
  (rspObj : any) :
  Z.land t1 PackageType_BitSize = Z.land t2 PackageType_BitSize ->
  seen (ReadBody (with_pkgType h t1) rspObj)
  = seen (ReadBody (with_pkgType h t2) rspObj) /\
  seen_attachments (ReadAttachments (with_pkgType h t1))
  = seen_attachments (ReadAttachments (with_pkgType h t2)).
Proof.
  intros Ht. split.
  - unfold ReadBody.
    change (readBodyBytes (with_pkgType h t1)) with (readBodyBytes h).
    change (readBodyBytes (with_pkgType h t2)) with (readBodyBytes h).
    destruct (readBodyBytes h) as [[got r]| |]; try reflexivity.
    cbn [bind]. destruct got as [x|buf]; [reflexivity|].
    cbn [with_reader with_pkgType pkgType reader bodyLen stream].
    rewrite Ht. branches; reflexivity.
  - unfold ReadAttachments.
    change (readBodyBytes (with_pkgType h t1)) with (readBodyBytes h).
    change (readBodyBytes (with_pkgType h t2)) with (readBodyBytes h).
    destruct (readBodyBytes h) as [[got r]| |]; try reflexivity.
    cbn [bind]. destruct got as [x|buf]; [reflexivity|].
    cbn [with_reader with_pkgType pkgType reader bodyLen stream].
    rewrite Ht. branches; reflexivity.
Qed.

(** X15: [ReadBody] and [ReadAttachments] consume alike.  On the same
    session they leave the same session behind: the reader past the body,
    and type, body length and mode as they were. *)
Theorem body_reads_leave_same_session (h h1 h2 : HessianCodec) (o o1 : any)
  (e1 e2 : option error) (m : GoMap) :
  ReadBody h o = Returns (e1, h1, o1) ->
  ReadAttachments h = Returns (m, e2, h2) ->
  h1 = h2 /\ pkgType h1 = pkgType h /\ bodyLen h1 = bodyLen h /\
  stream h1 = stream h.
Proof.
  intros H1 H2.
  destruct (ReadBody_session _ _ H1) as (got1 & r1 & Hb1 & ->).
  destruct (ReadAttachments_session _ H2) as (got2 & r2 & Hb2 & ->).
  rewrite Hb1 in Hb2. inversion Hb2; subst. repeat split.
Qed.

(** X17: a session with a negative body length, which only the
    constructors with a given length can make.  In streaming mode both
    body reads panic when they allocate the buffer; in buffered mode both
    return the negative-count error of [Peek] wrapped by [WithStack] and
    leave the session as it was. *)
Theorem negative_body_length (h : HessianCodec) (rspObj : any) :
  bodyLen h < 0 ->
  (stream h = true ->
   (exists msg, ReadBody h rspObj = Panics msg) /\
   (exists msg, ReadAttachments h = Panics msg)) /\
  (stream h = false ->
   ReadBody h rspObj = Returns (Some (WithStack bufio_ErrNegativeCount), h, rspObj) /\
   ReadAttachments h = Returns (None, Some (WithStack bufio_ErrNegativeCount), h)).
Proof.
  intros Hneg. split; intros Hs.
  - unfold ReadBody, ReadAttachments, readBodyBytes. rewrite Hs.
    destruct (Z.ltb_spec (bodyLen h) 0); [|lia].
    cbn [bind]. split; eexists; reflexivity.
  - unfold ReadBody, ReadAttachments, readBodyBytes. rewrite Hs.
    destruct (Z.ltb_spec (Buffered (reader h)) (bodyLen h)) as [Hlt|_];
      [unfold Buffered in Hlt; lia|].
    unfold Peek. destruct (Z.ltb_spec (bodyLen h) 0); [|lia].
    cbn [bind]. destruct h; split; reflexivity.
Qed.

End WithCollaborators.

Lemma ReadBody_skips_body_witness :
  ReadBody (C := sample_collaborators) (buffered_body_codec 0x0a) (any_slice [])
  = Returns (None,
             with_reader (buffered_body_codec 0x0a)
               {| buf_data := [5]; buf_size := 16; rd_err := None;
                  rd := [([6], None)] |},
             any_slice []).
Proof.
  refine (@ReadBody_skips_body sample_collaborators (buffered_body_codec 0x0a)
            (any_slice []) [1; 2; 3; 4]
            {| buf_data := [5]; buf_size := 16; rd_err := None; rd := [([6], None)] |}
            eq_refl eq_refl _).
  right. left. reflexivity.
Defined.

Lemma dispatch_by_masked_type_witness :
  seen (ReadBody (C := sample_collaborators)
          (with_pkgType (buffered_body_codec 0) 0x12) (any_slice []))
  = seen (ReadBody (C := sample_collaborators)
            (with_pkgType (buffered_body_codec 0) PackageRequest) (any_slice [])).
Proof.
  refine (proj1 (@dispatch_by_masked_type sample_collaborators (buffered_body_codec 0)
                   0x12 PackageRequest (any_slice []) _)).
  reflexivity.
Defined.

Lemma body_reads_leave_same_session_witness :
  ReadBody (C := sample_collaborators) (empty_body_codec PackageRequest) nil_any
  = Returns (None, empty_body_codec PackageRequest, nil_any) /\
  ReadAttachments (C := sample_collaborators) (empty_body_codec PackageRequest)
  = Returns (Some [("k", any_string "v")], None, empty_body_codec PackageRequest) /\
  bodyLen (empty_body_codec PackageRequest) = 0.
Proof.
  split; [reflexivity|]. split; [reflexivity|].
  exact (proj1 (proj2 (proj2
           (@body_reads_leave_same_session sample_collaborators
              (empty_body_codec PackageRequest) (empty_body_codec PackageRequest)
              (empty_body_codec PackageRequest) nil_any nil_any None None
              (Some [("k", any_string "v")]) eq_refl eq_refl)))).
Defined.

Lemma negative_body_length_witness :
  ReadBody (C := sample_collaborators) (NewHessianCodecCustom 0 (NewReaderSize [] 16) (-1))
    nil_any
  = Returns (Some (WithStack bufio_ErrNegativeCount),
             NewHessianCodecCustom 0 (NewReaderSize [] 16) (-1), nil_any)
  /\ exists msg,
       ReadBody (C := sample_collaborators)
         (NewStreamHessianCodecCustom 0 (NewReaderSize [] 16) (-1)) nil_any
       = Panics msg.
Proof.
  split.
  - refine (proj1 (proj2 (@negative_body_length sample_collaborators
                            (NewHessianCodecCustom 0 (NewReaderSize [] 16) (-1))
                            nil_any _) eq_refl)).
    reflexivity.
  - refine (proj1 (proj1 (@negative_body_length sample_collaborators
                            (NewStreamHessianCodecCustom 0 (NewReaderSize [] 16) (-1))
                            nil_any _) eq_refl)).
    reflexivity.
Defined.

(** X16: from [ReadHeader] to [Write].  Of the headers [ReadHeader] fills
    from an empty one, [Write] packs those of type request and of type
    response; the others, the headers of heartbeat, two-way and exception
    frames, it refuses as unrecognized. *)
Theorem Write_of_decoded_header (K : Consts) (C : Collaborators) (a : Arch)
  (h h' h2 : HessianCodec) (hd : DubboHeader) (e : option error)
  (service : Service) (body : any) :
  ReadHeader a h emptyHeader = Returns (e, h', hd) ->
  recorded e = true ->
  fst (Write h2 service hd body) =
  if Type_ hd =? PackageRequest then packRequest service hd body
  else if Type_ hd =? PackageResponse then packResponse hd body
  else ([], Some (Errorf ("Unrecognized message type: " ++ fmt_int (Type_ hd)))).
Proof.
  intros H Hrec.
  destruct (@ReadHeader_recorded_decoded _ _ _ _ _ _ _ H Hrec) as (buf & r & _ & Hd & _).
  destruct (@decodeHeader_shape _ _ _ _ _ Hd) as (_ & Ehd).
  assert (Ht : In (Type_ hd) decodedTypes).
  { rewrite Ehd. cbn [Type_ emptyHeader]. rewrite Z.lor_0_l.
    apply typeOfBytes_decoded. }
  unfold Write. unfold decodedTypes in Ht. cbn [In] in Ht.
  repeat (destruct Ht as [Ht|Ht]; [rewrite <- Ht; reflexivity|]).
  contradiction.
Qed.

Lemma Write_of_decoded_header_witness :
  fst (Write (C := sample_collaborators) (empty_body_codec 0) sample_service
         (decodedHeader (K := dubbo) sample_fields) nil_any)
  = ([], Some (Errorf "Unrecognized message type: 36")).
Proof.
  exact (@Write_of_decoded_header dubbo sample_collaborators Arch64 whole_frame_codec
           _ (empty_body_codec 0) (decodedHeader (K := dubbo) sample_fields) None
           sample_service nil_any eq_refl eq_refl).
Defined.

End BodyDispatch.

(** * The header bytes in streaming mode, and a fresh session *)

Module StreamHeader.
Import BufioFacts ReaderFacts StreamFacts.

(** A [Read] on a healthy reader that returned no error took what it
    copied off the front of what was pending. *)
Lemma Read_healthy_ok (r r' : Reader) (k : nat) (d : list byte) :
  healthy r = true -> (0 < k)%nat ->
  Read r k = Returns (d, None, r') ->
  d ++ pending r' = pending r /\ healthy r' = true.
Proof.
  intros Hh Hk HR.
  destruct (buf_data r) as [|x l] eqn:Hd; [destruct (rd r) as [|c s0] eqn:Hrd|].
  - exfalso. destruct (healthy_inv _ Hh) as [Herr _].
    revert HR. unfold Read. destruct (Nat.eqb_spec k 0); [lia|].
    rewrite Hd, Herr, Hrd. cbn [src_Read].
    destruct (buf_size r <=? k)%nat; discriminate.
  - assert (Hne : buf_data r <> [] \/ rd r <> [])
      by (right; rewrite Hrd; discriminate).
    destruct (@Read_healthy r r' k d None Hh Hk Hne HR) as (_ & Hp & Hh').
    split; assumption.
  - assert (Hne : buf_data r <> [] \/ rd r <> [])
      by (left; rewrite Hd; discriminate).
    destruct (@Read_healthy r r' k d None Hh Hk Hne HR) as (_ & Hp & Hh').
    split; assumption.
Qed.

(** X19: the header bytes of streaming mode.  On a source without errors,
    the sixteen bytes [ReadHeader] goes on to decode are the bytes its one
    or two reads took off the front of the stream, in order, followed by
    zeros when the reads gave fewer than sixteen; exactly the bytes taken
    are consumed. *)
Theorem readHeaderBytes_stream_prefix (h : HessianCodec) (buf : list byte)
  (r' : Reader) :
  stream h = true ->
  healthy (reader h) = true ->
  readHeaderBytes h = Returns (inr buf, r') ->
  exists d,
    (length d <= 16)%nat /\
    buf = d ++ repeat 0 (16 - length d) /\
    d ++ pending r' = pending (reader h) /\
    healthy r' = true.
Proof.
  intros Hs Hh. unfold readHeaderBytes. rewrite Hs.
  change (Z.to_nat HEADER_LENGTH) with 16%nat.
  change (length (repeat 0 16)) with 16%nat.
  destruct (Read (reader h) 16) as [[[d1 e1] r1]| |] eqn:HR1; try discriminate.
  cbn [bind]. destruct e1 as [e1|]; [discriminate|].
  pose proof (Read_length _ _ HR1) as Hl1.
  destruct (@Read_healthy_ok (reader h) r1 16 d1 Hh ltac:(lia) HR1) as [Hp1 Hh1].
  pose proof (@copy_at_tail [] d1 16 Hl1) as Hc1. cbn [app length] in Hc1.
  rewrite Hc1.
  destruct (Z.ltb_spec (Z.of_nat (length d1)) HEADER_LENGTH) as [Hshort|Hfull].
  - assert (Hk : (length (d1 ++ repeat 0%Z (16 - length d1)) - length d1
                  = 16 - length d1)%nat).
    { rewrite length_app, repeat_length. lia. }
    rewrite Hk.
    destruct (Read r1 (16 - length d1)) as [[[d2 e2] r2]| |] eqn:HR2; try discriminate.
    cbn [bind]. destruct e2 as [e2|]; [discriminate|].
    pose proof (Read_length _ _ HR2) as Hl2.
    unfold HEADER_LENGTH in Hshort.
    destruct (@Read_healthy_ok r1 r2 (16 - length d1) d2 Hh1 ltac:(lia) HR2)
      as [Hp2 Hh2].
    rewrite copy_at_tail by exact Hl2.
    intros E. injection E as <- <-. exists (d1 ++ d2).
    rewrite length_app. repeat split.
    + lia.
    + f_equal. f_equal.
      change ((16 - length d1 - length d2)%nat = (16 - (length d1 + length d2))%nat).
      lia.
    + rewrite <- Hp1, <- Hp2, app_assoc. reflexivity.
    + exact Hh2.
  - intros E. injection E as <- <-. exists d1. repeat split; assumption.
Qed.

Lemma readHeaderBytes_stream_prefix_witness :
  let h := NewStreamHessianCodecCustom 0
             (NewReaderSize (trickling_source dubbo) 4096) 0 in
  let r' := {| buf_data := []; buf_size := 4096; rd_err := None;
               rd := [([0; 0; 0; 0; 0; 7], None)] |} in
  let buf := [0xda; 0xbb; 1; 0; 0; 0; 0; 0; 0; 0; 0; 0; 0; 0; 0; 0] in
  readHeaderBytes h = Returns (inr buf, r') /\
  exists d,
    (length d <= 16)%nat /\ buf = d ++ repeat 0 (16 - length d) /\
    d ++ pending r' = pending (reader h).
Proof.
  split; [reflexivity|].
  destruct (@readHeaderBytes_stream_prefix
              (NewStreamHessianCodecCustom 0
                 (NewReaderSize (trickling_source dubbo) 4096) 0)
              [0xda; 0xbb; 1; 0; 0; 0; 0; 0; 0; 0; 0; 0; 0; 0; 0; 0]
              {| buf_data := []; buf_size := 4096; rd_err := None;
                 rd := [([0; 0; 0; 0; 0; 7], None)] |}
              eq_refl eq_refl eq_refl) as (d & Hl & Hb & Hp & _).
  exists d. repeat split; assumption.
Defined.

Section WithCollaborators.

Context {C : Collaborators}.

(** X20: a session fresh from [NewHessianCodec], before any header was
    read.  Its body length is zero and its type matches no case of the
    dispatch, so [ReadBody] returns nil and [ReadAttachments] the nil map
    and nil, without consuming a byte: session and result slot are as they
    were, whatever the reader holds. *)
Theorem fresh_session_reads_nothing (r : Reader) (rspObj : any) :
  ReadBody (NewHessianCodec r) rspObj = Returns (None, NewHessianCodec r, rspObj) /\
  ReadAttachments (NewHessianCodec r) = Returns (None, None, NewHessianCodec r).
Proof.
  assert (Hb : readBodyBytes (NewHessianCodec r) = Returns (inr [], r)).
  { unfold readBodyBytes, NewHessianCodec. cbn [stream bodyLen reader].
    destruct (Z.ltb_spec (Buffered r) 0) as [Hlt|_]; [unfold Buffered in Hlt; lia|].
    unfold Peek. cbn [Z.ltb Z.compare]. rewrite Peek_loop_eq.
    destruct (Z.ltb_spec (Buffered r) 0) as [Hlt|_]; [unfold Buffered in Hlt; lia|].
    cbn [andb bind].
    destruct (Z.ltb_spec (Size r) 0) as [Hlt|_]; [unfold Size in Hlt; lia|].
    destruct (Z.ltb_spec (Buffered r) 0) as [Hlt|_]; [unfold Buffered in Hlt; lia|].
    reflexivity. }
  unfold ReadBody, ReadAttachments. rewrite Hb. split; reflexivity.
Qed.

End WithCollaborators.

End StreamHeader.
